(** * YOLOv2 detection decoding and LISA loader: a shallow embedding

    Embedded sources:
    - [src/model/YOLOv2.py]: [YOLOv2.predict], [sigmoid], [softmax];
    - [src/process_lisa.py]: [load_lisa_data].

    Conventions.
    - float32 tensors are idealised as real numbers ([R]); rounding, NaN and
      overflow are outside the model.
    - A dense array is its shape together with an index function.
    - Python exceptions are values of [exception]; a computation that may
      raise returns a [result].
    - [cfg] constants ([N_ANCHORS], [N_CLASSES], [ANCHORS], [HIER_TREE]), the
      Keras network and [preprocess_img] are not part of the embedded
      sources; they are variables of the section [Predict]. *)

From Stdlib Require Import Ascii String Reals Lra Lia Bool ZArith Arith List.
Import ListNotations.

Set Warnings "-register-all".
Open Scope R_scope.

(** ** Exceptions and results *)

Inductive exception : Type :=
| ValueError (msg : string)
| IOError (msg : string)
| IndexError
| UnboundLocalError
| InvalidArgumentError
| LibraryError (msg : string).

Inductive result (A : Type) : Type :=
| Ok (a : A)
| Raise (e : exception).

Arguments Ok {A} a.
Arguments Raise {A} e.

Definition bind {A B : Type} (r : result A) (k : A -> result B) : result B :=
  match r with
  | Ok a => k a
  | Raise e => Raise e
  end.

Notation "'do' x <- r ; k" := (bind r (fun x => k))
  (at level 10, x name, r at level 100, k at level 200).

Fixpoint mapM {A B : Type} (f : A -> result B) (l : list A) : result (list B) :=
  match l with
  | [] => Ok []
  | a :: l' => do b <- f a; do bs <- mapM f l'; Ok (b :: bs)
  end.

(** ** Numeric helpers *)

(** [x >= y] and [x > y] on tensors entries, as booleans. *)
Definition Rgeb (x y : R) : bool := if Rle_dec y x then true else false.
Definition Rgtb (x y : R) : bool := if Rlt_dec y x then true else false.

(** [def sigmoid(x): return 1. / (1. + np.exp(-x))]; [K.sigmoid] is the same
    function. *)
Definition sigmoid (x : R) : R := 1 / (1 + exp (- x)).

Definition sum_R (l : list R) : R := fold_right Rplus 0 l.

(** [def softmax(x): return np.exp(x) / np.sum(np.exp(x), axis=0)];
    [K.softmax] over the last axis is the same function on each vector. *)
Definition softmax (x : list R) : list R :=
  map (fun v => exp v / sum_R (map exp x)) x.

(** [K.max(v, -1)] on a non-empty vector. *)
Fixpoint vmax (d : R) (v : list R) : R :=
  match v with
  | [] => d
  | x :: v' => vmax (Rmax d x) v'
  end.

Definition K_max (v : list R) : R :=
  match v with
  | [] => 0
  | x :: v' => vmax x v'
  end.

(** [K.argmax(v, -1)]: the smallest index holding the maximum. *)
Fixpoint argmax_from (best : nat) (bv : R) (i : nat) (v : list R) : nat :=
  match v with
  | [] => best
  | x :: v' =>
      if Rgtb x bv then argmax_from i x (S i) v'
      else argmax_from best bv (S i) v'
  end.

Definition K_argmax (v : list R) : nat :=
  match v with
  | [] => 0%nat
  | x :: v' => argmax_from 0 x 1 v'
  end.

(** Python slice [l[start:stop]] (step 1): negative bounds count from the
    end, and both bounds are clipped to the sequence. *)
Definition slice_bound (n i : Z) : Z :=
  let i' := if (i <? 0)%Z then (i + n)%Z else i in
  Z.max 0 (Z.min n i').

Definition py_slice {A : Type} (l : list A) (start stop : Z) : list A :=
  let n := Z.of_nat (length l) in
  let s := slice_bound n start in
  let e := slice_bound n stop in
  firstn (Z.to_nat (e - s)) (skipn (Z.to_nat s) l).

(** NumPy broadcasting of [a * b] along the last axis. *)
Definition broadcast_mul (a b : list R) : result (list R) :=
  match a, b with
  | [x], _ => Ok (map (fun y => x * y) b)
  | _, [y] => Ok (map (fun x => x * y) a)
  | _, _ =>
      if Nat.eqb (length a) (length b)
      then Ok (map (fun p => fst p * snd p) (combine a b))
      else Raise InvalidArgumentError
  end.

(** ** Boxes and dense arrays *)

(** A row of the [boxes] tensor, in the order of the source:
    [Y1, X1, Y2, X2]. *)
Record Box : Type := mkBox { Y1 : R; X1 : R; Y2 : R; X2 : R }.

(** An image: [img.shape = (height, width, channels)] and its pixels. *)
Record Image : Type := mkImage {
  img_height : nat;
  img_width : nat;
  img_channels : nat;
  img_at : nat -> nat -> nat -> R
}.

(** The network output for one image, of shape
    [1, out_h, out_w, N_ANCHORS * (N_CLASSES + 5)]. *)
Record NetOut : Type := mkNetOut {
  out_h : nat;
  out_w : nat;
  out_at : nat -> nat -> nat -> R
}.

(** The reshaped prediction, of shape
    [1, GRID_H, GRID_W, N_ANCHORS, N_CLASSES + 5]. *)
Record Prediction : Type := mkPrediction {
  GRID_H : nat;
  GRID_W : nat;
  pred_at : nat -> nat -> nat -> nat -> R
}.

(** A node of the class hierarchy: [node.id] and [node.children]. *)
Inductive Node : Type :=
| mkNode (id : Z) (children : list Node).

Definition node_id (n : Node) : Z := match n with mkNode i _ => i end.
Definition node_children (n : Node) : list Node :=
  match n with mkNode _ c => c end.

(** [l[0]] on a Python list. *)
Definition first_child (l : list Node) : result Node :=
  match l with
  | [] => Raise IndexError
  | n :: _ => Ok n
  end.

(** [tf.boolean_mask(t, mask)] on the flattened leading axes. *)
Fixpoint boolean_mask {A : Type} (t : list A) (mask : list bool) : list A :=
  match t, mask with
  | x :: t', b :: mask' =>
      if b then x :: boolean_mask t' mask' else boolean_mask t' mask'
  | _, _ => []
  end.

(** [K.gather(t, indices)]. *)
Definition gather {A : Type} (d : A) (t : list A) (indices : list nat) : list A :=
  map (fun i => nth i t d) indices.

(** ** TensorFlow's [tf.image.non_max_suppression]

    The operation belongs to TensorFlow, not to the repository; it is
    modelled after its kernel: boxes are visited by decreasing score, a
    visited box that is still active is selected and deactivates every later
    box whose overlap with it exceeds the threshold, and the visit stops once
    [min(max_output_size, num_boxes)] boxes are selected. The kernel rejects
    an [iou_threshold] outside [0, 1]. *)

(** Overlap of two boxes given as [y1, x1, y2, x2]; corners may come in
    either order, and an empty box overlaps nothing. *)
Definition IOU (a b : Box) : R :=
  let ymin_a := Rmin (Y1 a) (Y2 a) in
  let xmin_a := Rmin (X1 a) (X2 a) in
  let ymax_a := Rmax (Y1 a) (Y2 a) in
  let xmax_a := Rmax (X1 a) (X2 a) in
  let ymin_b := Rmin (Y1 b) (Y2 b) in
  let xmin_b := Rmin (X1 b) (X2 b) in
  let ymax_b := Rmax (Y1 b) (Y2 b) in
  let xmax_b := Rmax (X1 b) (X2 b) in
  let area_a := (ymax_a - ymin_a) * (xmax_a - xmin_a) in
  let area_b := (ymax_b - ymin_b) * (xmax_b - xmin_b) in
  if Rgeb 0 area_a || Rgeb 0 area_b then 0
  else
    let intersection_ymin := Rmax ymin_a ymin_b in
    let intersection_xmin := Rmax xmin_a xmin_b in
    let intersection_ymax := Rmin ymax_a ymax_b in
    let intersection_xmax := Rmin xmax_a xmax_b in
    let intersection_area :=
      Rmax (intersection_ymax - intersection_ymin) 0 *
      Rmax (intersection_xmax - intersection_xmin) 0 in
    intersection_area / (area_a + area_b - intersection_area).

Definition box0 : Box := mkBox 0 0 0 0.

(** Indices ordered by decreasing score. The indices are inserted from the
    highest to the lowest, so that equal scores keep index order. *)
Fixpoint insert_desc (scores : list R) (i : nat) (l : list nat) : list nat :=
  match l with
  | [] => [i]
  | j :: l' =>
      if Rgeb (nth i scores 0) (nth j scores 0) then i :: j :: l'
      else j :: insert_desc scores i l'
  end.

Definition DecreasingArgSort (scores : list R) (n : nat) : list nat :=
  fold_right (insert_desc scores) [] (seq 0 n).

(** The selection loop; [room] is the number of boxes still to be selected
    and [candidates] the active boxes not yet visited. *)
Fixpoint nms_select (boxes : list Box) (iou_threshold : R)
    (room : nat) (candidates : list nat) : list nat :=
  match room with
  | O => []
  | S room' =>
      match candidates with
      | [] => []
      | i :: rest =>
          i :: nms_select boxes iou_threshold room'
                 (filter (fun j => negb (Rgtb (IOU (nth i boxes box0) (nth j boxes box0))
                                              iou_threshold)) rest)
      end
  end.

Definition non_max_suppression (boxes : list Box) (scores : list R)
    (max_output_size : nat) (iou_threshold : R) : result (list nat) :=
  if Rgeb iou_threshold 0 && Rgeb 1 iou_threshold then
    let num_boxes := length boxes in
    let output_size := Nat.min max_output_size num_boxes in
    Ok (nms_select boxes iou_threshold output_size
          (DecreasingArgSort scores num_boxes))
  else Raise InvalidArgumentError.

(** ** [YOLOv2.predict] *)

Section Predict.

(** [cfg] constants. [HIER_TREE] stands for the root node
    [HIER_TREE.tree_dict[-1]], the only entry the source reads. *)
Variables N_ANCHORS N_CLASSES : nat.
Variable ANCHORS : list (R * R).
Variable HIER_TREE : Node.

(** [utils.augment_img.preprocess_img] and [self.model.predict] applied to
    the batch holding the one pre-processed image. *)
Variable preprocess_img : Image -> Image.
Variable model_predict : Image -> NetOut.

(** [np.reshape(prediction, [-1, pred_shape[1], pred_shape[2], N_ANCHORS,
    N_CLASSES+5])]; NumPy cannot infer [-1] when the other dimensions
    multiply to zero. *)
Definition reshape_prediction (o : NetOut) : result Prediction :=
  if ((out_h o =? 0) || (out_w o =? 0) || (N_ANCHORS =? 0))%nat
  then Raise (ValueError "cannot reshape array")
  else Ok {| GRID_H := out_h o; GRID_W := out_w o;
             pred_at := fun i j k c => out_at o i j (k * (N_CLASSES + 5) + c) |}.

(** [K.reshape(K.variable(ANCHORS), [1, 1, 1, N_ANCHORS, 2])]. *)
Definition anchors_tensor : result (nat -> R * R) :=
  if (length ANCHORS =? N_ANCHORS)%nat
  then Ok (fun k => nth k ANCHORS (0, 0))
  else Raise InvalidArgumentError.

(** The positions of the leading axes [1, GRID_H, GRID_W, N_ANCHORS], in
    row-major order. *)
Definition cells (p : Prediction) : list (nat * nat * nat) :=
  flat_map (fun i =>
    flat_map (fun j =>
      map (fun k => (i, j, k)) (seq 0 N_ANCHORS))
      (seq 0 (GRID_W p)))
    (seq 0 (GRID_H p)).

Section Cell.

Variable p : Prediction.
Variable anchors : nat -> R * R.
Variables i j k : nat.

(** Grid-cell map: [c_xy[0, i, j, 0] = (j, i)]; [netout_size = (GRID_W,
    GRID_H)]. *)
Definition c_xy : R * R := (INR j, INR i).
Definition netout_size : R * R := (INR (GRID_W p), INR (GRID_H p)).

Definition box_xy : R * R :=
  ((sigmoid (pred_at p i j k 0) + fst c_xy) / fst netout_size,
   (sigmoid (pred_at p i j k 1) + snd c_xy) / snd netout_size).

Definition box_wh : R * R :=
  (exp (pred_at p i j k 2) * fst (anchors k) / fst netout_size,
   exp (pred_at p i j k 3) * snd (anchors k) / snd netout_size).

Definition box_confidence : R := sigmoid (pred_at p i j k 4).

Definition box_class_probs : list R :=
  map (pred_at p i j k) (seq 5 N_CLASSES).

Definition box_mins : R * R :=
  (fst box_xy - fst box_wh / 2, snd box_xy - snd box_wh / 2).

Definition box_maxes : R * R :=
  (fst box_xy + fst box_wh / 2, snd box_xy + snd box_wh / 2).

(** [# Y1, X1, Y2, X2] *)
Definition decode_box : Box :=
  mkBox (snd box_mins) (fst box_mins) (snd box_maxes) (fst box_maxes).

(** The three scoring modes. *)
Definition box_scores (mode : Z) : result (list R) :=
  if (mode =? 0)%Z then Ok [box_confidence]
  else if (mode =? 1)%Z then
    do c0 <- first_child (node_children HIER_TREE);
    let id := node_id c0 in
    broadcast_mul [box_confidence]
      (softmax (py_slice box_class_probs id
                  (id + Z.of_nat (length (node_children HIER_TREE)))))
  else if (mode =? 2)%Z then
    do c0 <- first_child (node_children HIER_TREE);
    let id := node_id c0 in
    do parent_scores <-
      broadcast_mul [box_confidence]
        (softmax (py_slice box_class_probs id
                    (id + Z.of_nat (length (node_children HIER_TREE)))));
    do scores <-
      mapM (fun node =>
              do n0 <- first_child (node_children node);
              let id := node_id n0 in
              broadcast_mul
                (py_slice parent_scores (node_id node) (node_id node + 1))
                (softmax (py_slice box_class_probs id
                            (id + Z.of_nat (length (node_children node))))))
           (node_children HIER_TREE);
    Ok (concat scores)
  else Raise UnboundLocalError.

(** [K.argmax(box_scores, -1)] and [K.max(box_scores, -1)] at this position;
    the reduction rejects an empty axis. *)
Definition box_class_and_score (mode : Z) : result (nat * R) :=
  do s <- box_scores mode;
  match s with
  | [] => Raise InvalidArgumentError
  | _ => Ok (K_argmax s, K_max s)
  end.

End Cell.

(** Lines 98-110 over the whole grid: the [boxes] tensor, flattened. *)
Definition decode_boxes (p : Prediction) (anchors : nat -> R * R) : list Box :=
  map (fun c => match c with (i, j, k) => decode_box p anchors i j k end)
      (cells p).

(** Lines 113-130 over the whole grid: [box_classes] and
    [box_class_scores], flattened. *)
Definition resolve_scores (p : Prediction) (mode : Z)
  : result (list nat * list R) :=
  do cs <- mapM (fun c => match c with (i, j, k) =>
                   box_class_and_score p i j k mode end) (cells p);
  Ok (map fst cs, map snd cs).

(** [prediction_mask = (box_class_scores >= score_threshold)] *)
Definition prediction_mask (box_class_scores : list R) (score_threshold : R)
  : list bool :=
  map (fun s => Rgeb s score_threshold) box_class_scores.

(** Lines 131-135: the three tensors masked by the same mask. *)
Definition detection_filter (boxes : list Box) (box_class_scores : list R)
    (box_classes : list nat) (score_threshold : R)
  : list Box * list R * list nat :=
  let mask := prediction_mask box_class_scores score_threshold in
  (boolean_mask boxes mask,
   boolean_mask box_class_scores mask,
   boolean_mask box_classes mask).

(** Lines 138-142: [boxes * image_dims] with
    [image_dims = [height, width, height, width]] taken from [img.shape]. *)
Definition image_dims (img : Image) : R * R * R * R :=
  (INR (img_height img), INR (img_width img),
   INR (img_height img), INR (img_width img)).

Definition scale_box (d : R * R * R * R) (b : Box) : Box :=
  match d with
  | (d0, d1, d2, d3) => mkBox (Y1 b * d0) (X1 b * d1) (Y2 b * d2) (X2 b * d3)
  end.

Definition rescale (img : Image) (boxes : list Box) : list Box :=
  map (scale_box (image_dims img)) boxes.

(** Lines 144-147: at most [tf.Variable(10)] boxes survive. *)
Definition max_output_size : nat := 10.

Definition suppress (boxes : list Box) (scores : list R) (classes : list nat)
    (iou_threshold : R) : result (list Box * list R * list nat) :=
  do nms_index <-
    non_max_suppression boxes scores max_output_size iou_threshold;
  Ok (gather box0 boxes nms_index,
      gather 0 scores nms_index,
      gather 0%nat classes nms_index).

(** Lines 155-158: the class ids handed back to the caller. *)
Definition adjust_class (mode : Z) (c : nat) : Z :=
  let c0 := Z.of_nat c in
  let c1 := if (mode =? 0)%Z then (c0 - 1)%Z else c0 in
  if (mode =? 2)%Z
  then (c1 + Z.of_nat (length (node_children HIER_TREE)))%Z
  else c1.

(** The boxes, scores and classes handed to the suppression, i.e. the state
    of the three tensors just before line 144. *)
Definition nms_input (img : Image) (score_threshold : R) (mode : Z)
  : result (list Box * list R * list nat) :=
  let input_img := preprocess_img img in
  do prediction <- reshape_prediction (model_predict input_img);
  do anchors <- anchors_tensor;
  let boxes := decode_boxes prediction anchors in
  do cs <- resolve_scores prediction mode;
  match detection_filter boxes (snd cs) (fst cs) score_threshold with
  | (boxes, scores, classes) => Ok (rescale img boxes, scores, classes)
  end.

Definition predict (img : Image) (iou_threshold score_threshold : R) (mode : Z)
  : result (list Box * list R * list Z) :=
  do cand <- nms_input img score_threshold mode;
  match cand with
  | (boxes, scores, classes) =>
      do kept <- suppress boxes scores classes iou_threshold;
      match kept with
      | (boxes_prediction, scores_prediction, classes_prediction) =>
          Ok (boxes_prediction, scores_prediction,
              map (adjust_class mode) classes_prediction)
      end
  end.

End Predict.

(** ** [load_lisa_data] *)

Module Lisa.

(** What the function asks of its environment, in program order. *)
Inductive event : Type :=
| IsDir (path : string)
| Glob (pattern : string)
| ReadCsv (file : string).

Section Load.

(** pandas values and the operations the function applies to them; they
    belong to [os], [glob] and [pandas]. *)
Variables DataFrame Series : Type.
Variable isdir : string -> bool.
Variable glob : string -> list string.
Variable read_csv : string -> result DataFrame.
Variable get_column : DataFrame -> string -> result Series.
Variable prepend : string -> Series -> Series.
Variable loc_columns : DataFrame -> string -> string -> result DataFrame.
Variable concat_series : list Series -> result Series.
Variable concat_frames : list DataFrame -> result DataFrame.
Variable select_columns : DataFrame -> list string -> result DataFrame.

(** The [for fl in csv_files] loop; [X] and [Y] grow by [append]. *)
Fixpoint read_all (path : string) (csv_files : list string)
    (X : list Series) (Y : list DataFrame)
  : list event * result (list Series * list DataFrame) :=
  match csv_files with
  | [] => ([], Ok (X, Y))
  | fl :: rest =>
      match read_csv fl with
      | Raise e => ([ReadCsv fl], Raise e)
      | Ok df =>
          match get_column df "Filename" with
          | Raise e => ([ReadCsv fl], Raise e)
          | Ok names =>
              match loc_columns df "Annotation tag" "Lower right corner Y" with
              | Raise e => ([ReadCsv fl], Raise e)
              | Ok labels =>
                  match read_all path rest (X ++ [prepend path names])
                          (Y ++ [labels]) with
                  | (tr, r) => (ReadCsv fl :: tr, r)
                  end
              end
          end
      end
  end.

Definition load_lisa_data (path : option string)
  : list event * result (Series * DataFrame) :=
  match path with
  | None => ([], Raise (ValueError "Please setup correct path to to data set"))
  | Some path =>
      if negb (isdir path)
      then ([IsDir path], Raise (IOError "Path does not exist"))
      else
        let csv_files := glob (path ++ "*.csv")%string in
        match read_all path csv_files [] [] with
        | (tr, r) =>
            (IsDir path :: Glob (path ++ "*.csv")%string :: tr,
             do XY <- r;
             do X <- concat_series (fst XY);
             do Y <- concat_frames (snd XY);
             do Y' <- select_columns Y
                        ["Upper left corner X"%string;
                         "Upper left corner Y"%string;
                         "Lower right corner X"%string;
                         "Lower right corner Y"%string;
                         "Annotation tag"%string];
             Ok (X, Y'))
        end
  end.

End Load.

End Lisa.

(** ** [space_to_depth_x2_output_shape] *)

Module Shapes.

(** An entry of a Keras shape: a size, or Python's [None]. *)
Definition dim : Type := option nat.

(** Truth value of a shape entry: [None] and [0] are false. *)
Definition truthy (d : dim) : bool :=
  match d with
  | Some (S _) => true
  | _ => false
  end.

(** The function on a shape of four entries. Arithmetic on [None] raises
    TypeError, rendered as the result [None] of the whole call. *)
Definition space_to_depth_x2_output_shape (input_shape : dim * dim * dim * dim)
  : option (dim * dim * dim * dim) :=
  match input_shape with
  | (s0, s1, s2, s3) =>
      if truthy s1 then
        match s1, s2, s3 with
        | Some h, Some w, Some c =>
            Some (s0, Some (h / 2)%nat, Some (w / 2)%nat, Some (4 * c)%nat)
        | _, _, _ => None
        end
      else
        match s3 with
        | Some c => Some (s0, None, None, Some (4 * c)%nat)
        | None => None
        end
  end.

(** Number of entries of one sample of a shape whose sizes are known. *)
Definition sample_size (s : dim * dim * dim * dim) : option nat :=
  match s with
  | (_, Some h, Some w, Some c) => Some (h * w * c)%nat
  | _ => None
  end.

End Shapes.

(** ** [save_lisa_to_txt] *)

Module SaveLisa.

(** What the function asks of its environment: the requests of
    [load_lisa_data], then the write of [np.savetxt]. *)
Inductive event : Type :=
| Load (e : Lisa.event)
| SaveTxt (file : string).

Section Save.

Variables DataFrame Series : Type.
Variable isdir : string -> bool.
Variable glob : string -> list string.
Variable read_csv : string -> result DataFrame.
Variable get_column : DataFrame -> string -> result Series.
Variable prepend : string -> Series -> Series.
Variable loc_columns : DataFrame -> string -> string -> result DataFrame.
Variable concat_series : list Series -> result Series.
Variable concat_frames : list DataFrame -> result DataFrame.
Variable select_columns : DataFrame -> list string -> result DataFrame.

(** [pd.concat([image_paths, labels], axis=1)] and
    [np.savetxt(file, df.values, delimiter=',', fmt='%s')]. *)
Variable concat_columns : Series -> DataFrame -> result DataFrame.
Variable savetxt : string -> DataFrame -> result unit.

Definition save_lisa_to_txt (csv_path : option string) (save_file : string)
  : list event * result (Series * DataFrame) :=
  match Lisa.load_lisa_data DataFrame Series isdir glob read_csv get_column
          prepend loc_columns concat_series concat_frames select_columns
          csv_path with
  | (tr, Raise e) => (map Load tr, Raise e)
  | (tr, Ok (image_paths, labels)) =>
      match concat_columns image_paths labels with
      | Raise e => (map Load tr, Raise e)
      | Ok df =>
          (map Load tr ++ [SaveTxt "training.txt"],
           do _ <- savetxt "training.txt" df;
           Ok (image_paths, labels))
      end
  end.

End Save.

End SaveLisa.

(** A CSV file that [load_lisa_data] can use: it is read, and holds the
    [Filename] column and the label columns. *)
Definition csv_readable {DataFrame Series : Type}
    (read_csv : string -> result DataFrame)
    (get_column : DataFrame -> string -> result Series)
    (loc_columns : DataFrame -> string -> string -> result DataFrame)
    (names : string -> Series) (labels : string -> DataFrame)
    (fl : string) : Prop :=
  exists df,
    read_csv fl = Ok df
    /\ get_column df "Filename"%string = Ok (names fl)
    /\ loc_columns df "Annotation tag"%string "Lower right corner Y"%string
       = Ok (labels fl).

(** ** [evaluate._main_] *)

Module Evaluate.

(** Python indexing [l[i]]: a negative index counts from the end. *)
Definition py_index {A : Type} (l : list A) (i : Z) : result A :=
  let n := Z.of_nat (length l) in
  let i' := if (i <? 0)%Z then (i + n)%Z else i in
  if ((0 <=? i') && (i' <? n))%Z then
    match nth_error l (Z.to_nat i') with
    | Some x => Ok x
    | None => Raise IndexError
    end
  else Raise IndexError.

(** [DrawingBox(x1, y1, x2, y2, label, score)]; the row written to
    [detections.csv] holds the file name and the same six fields. *)
Record DrawingBox : Type := mkDrawingBox {
  x1 : R; y1 : R; x2 : R; y2 : R; label : string; score : R
}.

Inductive event : Type :=
| WriteRow (Filename : string) (b : DrawingBox)
| SaveImage (file : string).

(** [s.split('/')[-1]]: what follows the last ['/']. *)
Fixpoint basename_from (acc : string) (s : string) : string :=
  match s with
  | EmptyString => acc
  | String c s' =>
      if Ascii.eqb c "/"%char then basename_from EmptyString s'
      else basename_from (acc ++ String c EmptyString)%string s'
  end.

Definition basename (s : string) : string := basename_from EmptyString s.

Section Main.

(** [cfg.IMG_INPUT], the class names read from [CATEGORIES], the parsed
    command line ([--output-path]) and the rows of the CSV file. *)
Variable IMG_INPUT : nat.
Variable class_names : list string.
Variable OUTPUT : option string.

(** [os.path.isfile]; [cv2.cvtColor(cv2.imread(p), cv2.COLOR_BGR2RGB)];
    [preprocess_img(cv2.resize(orig_img, (IMG_INPUT, IMG_INPUT)))];
    [models.predict.predict] on the network with the weights loaded, which
    returns boxes, classes and scores; [draw_bboxes(...).save(file)]. *)
Variable isfile : string -> bool.
Variable imread : string -> result Image.
Variable resize_preprocess : Image -> nat -> result Image.
Variable predict : Image -> result (list Box * list Z * list R).
Variable draw_and_save : Image -> list DrawingBox -> string -> result unit.

(** [box * np.array(2 * [height / float(IMG_INPUT), width / float(IMG_INPUT)])]
    unpacked as [y1, x1, y2, x2]. *)
Definition to_image (height width : nat) (box : Box) : R * R * R * R :=
  let fy := INR height / INR IMG_INPUT in
  let fx := INR width / INR IMG_INPUT in
  (Y1 box * fy, X1 box * fx, Y2 box * fy, X2 box * fx).

(** The loop over [zip(boxes, classes, scores)]: the boxes drawn so far
    are [bboxes]. *)
Fixpoint write_detections (height width : nat) (img_path : string)
    (dets : list (Box * Z * R)) (bboxes : list DrawingBox)
  : list event * result (list DrawingBox) :=
  match dets with
  | [] => ([], Ok bboxes)
  | (box, cls, sc) :: rest =>
      match to_image height width box with
      | (vy1, vx1, vy2, vx2) =>
          match py_index class_names cls with
          | Raise e => ([], Raise e)
          | Ok name =>
              let b := mkDrawingBox vx1 vy1 vx2 vy2 name sc in
              match write_detections height width img_path rest
                      (bboxes ++ [b]) with
              | (ev, r) => (WriteRow img_path b :: ev, r)
              end
          end
      end
  end.

(** One pass of the body of [for instance in testing_instances[1:]]; an
    entry that is not a file is passed over without any effect. *)
Definition instance_body (instance : list string)
  : list event * result unit :=
  match instance with
  | [] => ([], Raise IndexError)
  | img_path :: _ =>
      if negb (isfile img_path) then ([], Ok tt)
      else
        match imread img_path with
        | Raise e => ([], Raise e)
        | Ok orig_img =>
            match resize_preprocess orig_img IMG_INPUT with
            | Raise e => ([], Raise e)
            | Ok img =>
                match predict img with
                | Raise e => ([], Raise e)
                | Ok (boxes, classes, scores) =>
                    match write_detections (img_height orig_img)
                            (img_width orig_img) img_path
                            (combine (combine boxes classes) scores) [] with
                    | (ev, Raise e) => (ev, Raise e)
                    | (ev, Ok bboxes) =>
                        match OUTPUT with
                        | None => (ev, Ok tt)
                        | Some _ =>
                            let file :=
                              ("./evaluation/" ++ basename img_path)%string in
                            (ev ++ [SaveImage file],
                             draw_and_save orig_img bboxes file)
                        end
                    end
                end
            end
        end
  end.

Fixpoint main_loop (instances : list (list string))
  : list event * result unit :=
  match instances with
  | [] => ([], Ok tt)
  | instance :: rest =>
      match instance_body instance with
      | (ev, Raise e) => (ev, Raise e)
      | (ev, Ok _) =>
          match main_loop rest with
          | (ev', r) => (ev ++ ev', r)
          end
      end
  end.

(** The loop of [_main_] over [testing_instances[1:]]. *)
Definition _main_ (testing_instances : list (list string))
  : list event * result unit :=
  main_loop (tl testing_instances).

End Main.

End Evaluate.

(** ** Sample configurations and inputs *)

Module Samples.

(** One anchor of one grid cell, three classes, a hierarchy without
    children. *)
Definition anchors1 : list (R * R) := [(1, 1)].
Definition flat_tree : Node := mkNode (-1) [].

(** A pre-processing step that resizes every image to 416 x 416. *)
Definition resize416 (img : Image) : Image :=
  mkImage 416 416 (img_channels img) (img_at img).

(** A network whose output is zero everywhere, on an [h] x [w] grid. *)
Definition zero_net (h w : nat) (_ : Image) : NetOut :=
  mkNetOut h w (fun _ _ _ => 0).

(** A network whose output on a 1 x 1 grid is the given channel vector. *)
Definition const_net (v : list R) (_ : Image) : NetOut :=
  mkNetOut 1 1 (fun _ _ c => nth c v 0).

(** A 200 x 100 (height x width) image. *)
Definition img_200x100 : Image := mkImage 200 100 3 (fun _ _ _ => 0).

(** [predict] and its stages with one anchor and three classes. *)
Definition predict1 (net : Image -> NetOut) :=
  predict 1 3 anchors1 flat_tree resize416 net.
Definition nms_input1 (net : Image -> NetOut) :=
  nms_input 1 3 anchors1 flat_tree resize416 net.

End Samples.

(** ** A sample run of the evaluation loop *)

Module EvalSamples.

(** Two class names, an output directory, one existing image of 200 x 100
    with one detection of class 0. *)
Definition class_names : list string := ["stop"%string; "yield"%string].

Definition isfile (f : string) : bool := String.eqb f "imgs/a.png".

Definition _main_ : list (list string) -> list Evaluate.event * result unit :=
  Evaluate._main_ 416 class_names (Some "out"%string) isfile
    (fun _ => Ok Samples.img_200x100)
    (fun img _ => Ok img)
    (fun _ => Ok ([mkBox 0 0 208 208], [0%Z], [0.9]))
    (fun _ _ _ => Ok tt).

Definition instance_body : list string -> list Evaluate.event * result unit :=
  Evaluate.instance_body 416 class_names (Some "out"%string) isfile
    (fun _ => Ok Samples.img_200x100)
    (fun img _ => Ok img)
    (fun _ => Ok ([mkBox 0 0 208 208], [0%Z], [0.9]))
    (fun _ _ _ => Ok tt).

Definition test_csv : list (list string) :=
  [["Filename"%string]; ["imgs/a.png"%string]; ["imgs/missing.png"%string]].

Definition row_a : Evaluate.DrawingBox :=
  Evaluate.mkDrawingBox (0 * (INR 100 / INR 416)) (0 * (INR 200 / INR 416))
    (208 * (INR 100 / INR 416)) (208 * (INR 200 / INR 416))
    "stop" 0.9.

End EvalSamples.

(** * Properties *)

(** ** Numeric facts *)

Lemma Rgeb_true (x y : R) : Rgeb x y = true <-> y <= x.
Proof. unfold Rgeb; destruct (Rle_dec y x); split; intros; try easy; lra. Qed.

Lemma Rgeb_false (x y : R) : Rgeb x y = false <-> x < y.
Proof. unfold Rgeb; destruct (Rle_dec y x); split; intros; try easy; lra. Qed.

Lemma Rgtb_true (x y : R) : Rgtb x y = true <-> y < x.
Proof. unfold Rgtb; destruct (Rlt_dec y x); split; intros; try easy; lra. Qed.

Lemma Rgtb_false (x y : R) : Rgtb x y = false <-> x <= y.
Proof. unfold Rgtb; destruct (Rlt_dec y x); split; intros; try easy; lra. Qed.

Lemma sigmoid_0 : sigmoid 0 = 1 / 2.
Proof. unfold sigmoid. rewrite Ropp_0, exp_0. lra. Qed.

Lemma sigmoid_pos (x : R) : 0 < sigmoid x.
Proof.
  unfold sigmoid. pose proof (exp_pos (- x)).
  apply Rdiv_lt_0_compat; lra.
Qed.

Lemma sigmoid_lt_1 (x : R) : sigmoid x < 1.
Proof.
  unfold sigmoid. pose proof (exp_pos (- x)) as Hx.
  apply Rmult_lt_reg_r with (1 + exp (- x)); [lra|].
  field_simplify; lra.
Qed.

Lemma sigmoid_ln (y : R) : 0 < y -> sigmoid (ln y) = y / (y + 1).
Proof.
  intros Hy. unfold sigmoid. rewrite exp_Ropp, exp_ln by assumption.
  field. lra.
Qed.

(** ** Lists *)

Lemma boolean_mask_nil_r {A : Type} (t : list A) : boolean_mask t [] = [].
Proof. destruct t; reflexivity. Qed.

Lemma boolean_mask_length_le {A : Type} (t : list A) (mask : list bool) :
  (length (boolean_mask t mask) <= length t)%nat.
Proof.
  revert mask; induction t as [|x t IH]; intros [|b mask]; simpl; try lia.
  specialize (IH mask). destruct b; simpl; lia.
Qed.

Lemma boolean_mask_all_true {A B : Type} (f : B -> bool) (t : list A) (s : list B) :
  Forall (fun y => f y = true) s -> (length t <= length s)%nat ->
  boolean_mask t (map f s) = t.
Proof.
  revert s; induction t as [|x t IH]; intros s Hs Hl; [reflexivity|].
  destruct s as [|y s]; simpl in *; [lia|].
  inversion Hs; subst.
  replace (f y) with true by (symmetry; assumption).
  f_equal. apply IH; [assumption | lia].
Qed.

Lemma boolean_mask_self_Forall {B : Type} (f : B -> bool) (s : list B) :
  Forall (fun y => f y = true) (boolean_mask s (map f s)).
Proof.
  induction s as [|y s IH]; simpl; [constructor|].
  destruct (f y) eqn:E; [constructor|]; assumption.
Qed.

Lemma boolean_mask_length_mono {A B : Type} (f : B -> bool) (t : list A) (s : list B) :
  (length (boolean_mask t (map f s)) <= length (boolean_mask s (map f s)))%nat.
Proof.
  revert s; induction t as [|x t IH]; intros s; simpl; [lia|].
  destruct s as [|y s]; simpl; [lia|].
  specialize (IH s). destruct (f y); simpl; lia.
Qed.

Lemma nth_error_flat_map_seq {A : Type} (f : nat -> list A) (m : nat) :
  (forall x, length (f x) = m) ->
  forall n s i q, (i < n)%nat -> (q < m)%nat ->
    nth_error (flat_map f (seq s n)) (i * m + q) = nth_error (f (s + i)%nat) q.
Proof.
  intros Hlen. induction n as [|n IH]; intros s i q Hi Hq; [lia|].
  simpl. destruct i as [|i].
  - simpl. rewrite nth_error_app1 by (rewrite Hlen; lia).
    now rewrite Nat.add_0_r.
  - rewrite nth_error_app2 by (rewrite Hlen; simpl; lia).
    rewrite Hlen. replace (S i * m + q - m)%nat with (i * m + q)%nat by (simpl; lia).
    rewrite IH by lia. f_equal. f_equal. lia.
Qed.

Lemma flat_map_length_uniform {A B : Type} (f : A -> list B) (m : nat) (l : list A) :
  (forall x, length (f x) = m) -> length (flat_map f l) = (length l * m)%nat.
Proof.
  intros H. induction l as [|a l IH]; simpl; [reflexivity|].
  rewrite length_app, H, IH. reflexivity.
Qed.

(** ** Geometry and anchor transform *)

Lemma cells_nth_error (N_ANCHORS : nat) (p : Prediction) (i j k : nat) :
  (i < GRID_H p)%nat -> (j < GRID_W p)%nat -> (k < N_ANCHORS)%nat ->
  nth_error (cells N_ANCHORS p) ((i * GRID_W p + j) * N_ANCHORS + k)
  = Some (i, j, k).
Proof.
  intros Hi Hj Hk. unfold cells.
  replace ((i * GRID_W p + j) * N_ANCHORS + k)%nat
    with (i * (GRID_W p * N_ANCHORS) + (j * N_ANCHORS + k))%nat by lia.
  rewrite nth_error_flat_map_seq with (m := (GRID_W p * N_ANCHORS)%nat);
    [| | assumption | nia].
  - rewrite nth_error_flat_map_seq with (m := N_ANCHORS);
      [| | assumption | assumption].
    + rewrite nth_error_map, nth_error_nth' with (d := 0%nat)
        by (rewrite length_seq; assumption).
      rewrite seq_nth by assumption. reflexivity.
    + intros x. now rewrite length_map, length_seq.
  - intros x. rewrite flat_map_length_uniform with (m := N_ANCHORS).
    + now rewrite length_seq.
    + intros y. now rewrite length_map, length_seq.
Qed.

Lemma cells_In (N_ANCHORS : nat) (p : Prediction) (i j k : nat) :
  In (i, j, k) (cells N_ANCHORS p) ->
  (i < GRID_H p)%nat /\ (j < GRID_W p)%nat /\ (k < N_ANCHORS)%nat.
Proof.
  unfold cells. intros H.
  apply in_flat_map in H as (i' & Hi & H).
  apply in_flat_map in H as (j' & Hj & H).
  apply in_map_iff in H as (k' & E & Hk).
  inversion E; subst. apply in_seq in Hi, Hj, Hk. lia.
Qed.

Lemma cells_length (N_ANCHORS : nat) (p : Prediction) :
  length (cells N_ANCHORS p) = (GRID_H p * (GRID_W p * N_ANCHORS))%nat.
Proof.
  unfold cells.
  rewrite flat_map_length_uniform with (m := (GRID_W p * N_ANCHORS)%nat).
  - now rewrite length_seq.
  - intros x. rewrite flat_map_length_uniform with (m := N_ANCHORS).
    + now rewrite length_seq.
    + intros y. now rewrite length_map, length_seq.
Qed.

Lemma anchors_tensor_Ok (N_ANCHORS : nat) (ANCHORS : list (R * R))
    (anchors : nat -> R * R) :
  anchors_tensor N_ANCHORS ANCHORS = Ok anchors ->
  length ANCHORS = N_ANCHORS /\ anchors = (fun k => nth k ANCHORS (0, 0)).
Proof.
  unfold anchors_tensor. destruct (Nat.eqb_spec (length ANCHORS) N_ANCHORS);
    intros E; inversion E; auto.
Qed.

(** C5. For every grid cell (i, j) and anchor k, the box stored at the
    row-major position of (i, j, k) has center
    ((sigmoid tx + j) / W, (sigmoid ty + i) / H), extent
    (exp tw * anchor width / W, exp th * anchor height / H), corners
    center - extent/2 and center + extent/2, laid out as (y1, x1, y2, x2). *)
Theorem decode_boxes_geometry (N_ANCHORS : nat) (ANCHORS : list (R * R))
    (p : Prediction) (anchors : nat -> R * R) (i j k : nat) :
  anchors_tensor N_ANCHORS ANCHORS = Ok anchors ->
  (i < GRID_H p)%nat -> (j < GRID_W p)%nat -> (k < N_ANCHORS)%nat ->
  let W := INR (GRID_W p) in
  let H := INR (GRID_H p) in
  let cx := (sigmoid (pred_at p i j k 0) + INR j) / W in
  let cy := (sigmoid (pred_at p i j k 1) + INR i) / H in
  let w := exp (pred_at p i j k 2) * fst (nth k ANCHORS (0, 0)) / W in
  let h := exp (pred_at p i j k 3) * snd (nth k ANCHORS (0, 0)) / H in
  nth_error (decode_boxes N_ANCHORS p anchors)
            ((i * GRID_W p + j) * N_ANCHORS + k)
  = Some {| Y1 := cy - h / 2; X1 := cx - w / 2;
            Y2 := cy + h / 2; X2 := cx + w / 2 |}.
Proof.
  intros Ha Hi Hj Hk. apply anchors_tensor_Ok in Ha as [_ ->].
  unfold decode_boxes. cbv zeta.
  rewrite nth_error_map, cells_nth_error by assumption.
  reflexivity.
Qed.

(** C8. Every decoded box has x1 <= x2 and y1 <= y2 when the anchors have
    non-negative width and height. *)
Theorem decode_boxes_ordered (N_ANCHORS : nat) (ANCHORS : list (R * R))
    (p : Prediction) (anchors : nat -> R * R) (b : Box) :
  anchors_tensor N_ANCHORS ANCHORS = Ok anchors ->
  Forall (fun a => 0 <= fst a /\ 0 <= snd a) ANCHORS ->
  In b (decode_boxes N_ANCHORS p anchors) ->
  X1 b <= X2 b /\ Y1 b <= Y2 b.
Proof.
  intros Ha Hpos Hb. apply anchors_tensor_Ok in Ha as [Hlen ->].
  unfold decode_boxes in Hb. apply in_map_iff in Hb as ([[i j] k] & <- & Hc).
  apply cells_In in Hc as (Hi & Hj & Hk).
  assert (Hk' : (k < length ANCHORS)%nat) by lia.
  pose proof (proj1 (Forall_forall _ _) Hpos _ (nth_In ANCHORS (0, 0) Hk'))
    as [Hw Hh].
  assert (HW : 0 < INR (GRID_W p)) by (apply lt_0_INR; lia).
  assert (HH : 0 < INR (GRID_H p)) by (apply lt_0_INR; lia).
  pose proof (exp_pos (pred_at p i j k 2)) as E2.
  pose proof (exp_pos (pred_at p i j k 3)) as E3.
  assert (0 <= exp (pred_at p i j k 2) * fst (nth k ANCHORS (0, 0)) / INR (GRID_W p)).
  { apply Rmult_le_pos; [apply Rmult_le_pos; lra|].
    left. now apply Rinv_0_lt_compat. }
  assert (0 <= exp (pred_at p i j k 3) * snd (nth k ANCHORS (0, 0)) / INR (GRID_H p)).
  { apply Rmult_le_pos; [apply Rmult_le_pos; lra|].
    left. now apply Rinv_0_lt_compat. }
  unfold decode_box, box_mins, box_maxes, box_wh, box_xy, netout_size, c_xy.
  simpl. lra.
Qed.

(** ** Detection filter *)

Lemma boolean_mask_self_filter {B : Type} (f : B -> bool) (s : list B) :
  boolean_mask s (map f s) = filter f s.
Proof.
  induction s as [|y s IH]; simpl; [reflexivity|].
  destruct (f y); now rewrite IH.
Qed.

Lemma boolean_mask_zip (tau : R) (boxes : list Box) (scores : list R)
    (classes : list nat) :
  let mask := prediction_mask scores tau in
  combine (combine (boolean_mask boxes mask) (boolean_mask scores mask))
          (boolean_mask classes mask)
  = filter (fun t => Rgeb (snd (fst t)) tau)
           (combine (combine boxes scores) classes).
Proof.
  unfold prediction_mask. cbv zeta.
  revert scores classes. induction boxes as [|x boxes IH]; intros scores classes.
  - reflexivity.
  - destruct scores as [|y scores]; [reflexivity|].
    destruct classes as [|c classes].
    + simpl. destruct (Rgeb y tau); simpl; now rewrite ?combine_nil.
    + simpl. destruct (Rgeb y tau); simpl; now rewrite IH.
Qed.

(** C7. The filter keeps exactly the candidates whose best class score is at
    least the threshold, keeps boxes, scores and classes aligned, and
    filtering its own output again at the same threshold changes nothing. *)
Theorem detection_filter_exact_idempotent (boxes : list Box) (scores : list R)
    (classes : list nat) (tau : R) (fb : list Box) (fs : list R)
    (fc : list nat) :
  detection_filter boxes scores classes tau = (fb, fs, fc) ->
  combine (combine fb fs) fc
    = filter (fun t => Rgeb (snd (fst t)) tau)
             (combine (combine boxes scores) classes)
  /\ (forall t, In t (combine (combine fb fs) fc) <->
                In t (combine (combine boxes scores) classes)
                /\ tau <= snd (fst t))
  /\ detection_filter fb fs fc tau = (fb, fs, fc).
Proof.
  unfold detection_filter. intros E. inversion E as [[Eb Es Ec]]. clear E.
  pose proof (boolean_mask_zip tau boxes scores classes) as Hz.
  cbv zeta in Hz. split; [exact Hz | split].
  - intros t. rewrite Hz, filter_In, Rgeb_true. reflexivity.
  - assert (Hall : Forall (fun y => Rgeb y tau = true)
                     (boolean_mask scores (prediction_mask scores tau))).
    { apply boolean_mask_self_Forall. }
    unfold prediction_mask in *.
    set (f := fun s => Rgeb s tau) in *.
    set (fs' := boolean_mask scores (map f scores)) in *.
    rewrite (boolean_mask_all_true f fs' fs' Hall (Nat.le_refl _)).
    rewrite (boolean_mask_all_true f _ fs' Hall
               (boolean_mask_length_mono f boxes scores)).
    rewrite (boolean_mask_all_true f _ fs' Hall
               (boolean_mask_length_mono f classes scores)).
    reflexivity.
Qed.

(** ** Non-maximum suppression *)

Lemma IOU_sym (a b : Box) : IOU a b = IOU b a.
Proof.
  unfold IOU. cbv zeta.
  rewrite (orb_comm (Rgeb 0 _) (Rgeb 0 _)).
  destruct (_ || _); [reflexivity|].
  rewrite (Rmax_comm (Rmin (Y1 a) (Y2 a))), (Rmax_comm (Rmin (X1 a) (X2 a))).
  rewrite (Rmin_comm (Rmax (Y1 a) (Y2 a))), (Rmin_comm (Rmax (X1 a) (X2 a))).
  f_equal. ring.
Qed.

Lemma insert_desc_In (scores : list R) (i x : nat) (l : list nat) :
  In x (insert_desc scores i l) <-> x = i \/ In x l.
Proof.
  induction l as [|j l IH]; simpl; [intuition|].
  destruct (Rgeb _ _); simpl; [intuition|].
  rewrite IH. intuition.
Qed.

Lemma insert_desc_length (scores : list R) (i : nat) (l : list nat) :
  length (insert_desc scores i l) = S (length l).
Proof.
  induction l as [|j l IH]; simpl; [reflexivity|].
  destruct (Rgeb _ _); simpl; [reflexivity | now rewrite IH].
Qed.

Lemma DecreasingArgSort_In (scores : list R) (n x : nat) :
  In x (DecreasingArgSort scores n) <-> (x < n)%nat.
Proof.
  unfold DecreasingArgSort. rewrite <- (Nat.add_0_l n) at 2.
  assert (G : forall s, In x (fold_right (insert_desc scores) [] (seq s n))
                        <-> (s <= x < s + n)%nat).
  { induction n as [|n IH]; intros s; simpl; [lia|].
    rewrite insert_desc_In, IH. lia. }
  rewrite G. lia.
Qed.

Lemma DecreasingArgSort_length (scores : list R) (n : nat) :
  length (DecreasingArgSort scores n) = n.
Proof.
  unfold DecreasingArgSort. generalize 0%nat.
  induction n as [|n IH]; intros s; simpl; [reflexivity|].
  now rewrite insert_desc_length, IH.
Qed.

Lemma nms_select_incl (boxes : list Box) (theta : R) (room : nat)
    (candidates : list nat) (i : nat) :
  In i (nms_select boxes theta room candidates) -> In i candidates.
Proof.
  revert candidates; induction room as [|room IH]; intros candidates; simpl;
    [easy|].
  destruct candidates as [|c rest]; [easy|].
  intros [->|H]; [now left|].
  right. apply IH in H. now apply filter_In in H.
Qed.

Lemma nms_select_length (boxes : list Box) (theta : R) (room : nat)
    (candidates : list nat) :
  (length (nms_select boxes theta room candidates) <= Nat.min room (length candidates))%nat.
Proof.
  revert candidates; induction room as [|room IH]; intros candidates; simpl;
    [lia|].
  destruct candidates as [|c rest]; simpl; [lia|].
  specialize (IH (filter (fun j => negb (Rgtb (IOU (nth c boxes box0) (nth j boxes box0)) theta)) rest)).
  pose proof (filter_length_le (fun j => negb (Rgtb (IOU (nth c boxes box0) (nth j boxes box0)) theta)) rest).
  lia.
Qed.

Lemma nms_select_pairs (boxes : list Box) (theta : R) (room : nat)
    (candidates : list nat) :
  ForallOrdPairs (fun i j => IOU (nth i boxes box0) (nth j boxes box0) <= theta)
                 (nms_select boxes theta room candidates).
Proof.
  revert candidates; induction room as [|room IH]; intros candidates; simpl;
    [constructor|].
  destruct candidates as [|c rest]; [constructor|].
  constructor; [|apply IH].
  apply Forall_forall. intros j Hj.
  apply nms_select_incl, filter_In in Hj as [_ Hj].
  apply negb_true_iff, Rgtb_false in Hj. exact Hj.
Qed.

Lemma ForallOrdPairs_nth {A : Type} (P : A -> A -> Prop) (d : A) (l : list A) :
  ForallOrdPairs P l ->
  forall a b, (a < b)%nat -> (b < length l)%nat -> P (nth a l d) (nth b l d).
Proof.
  induction 1 as [|x l Hx Hl IH]; intros a b Hab Hb; simpl in *; [lia|].
  destruct b as [|b]; [lia|]. destruct a as [|a].
  - apply (proj1 (Forall_forall _ _) Hx). apply nth_In. lia.
  - apply IH; lia.
Qed.

Lemma gather_length {A : Type} (d : A) (t : list A) (idx : list nat) :
  length (gather d t idx) = length idx.
Proof. unfold gather. apply length_map. Qed.

Lemma gather_nth {A : Type} (d : A) (t : list A) (idx : list nat) (a : nat) :
  (a < length idx)%nat -> nth a (gather d t idx) d = nth (nth a idx 0%nat) t d.
Proof.
  intros Ha. unfold gather.
  rewrite nth_indep with (d' := (fun i => nth i t d) 0%nat)
    by (rewrite length_map; assumption).
  apply (map_nth (fun i => nth i t d)).
Qed.

Lemma suppress_Ok (boxes : list Box) (scores : list R) (classes : list nat)
    (theta : R) (out : list Box * list R * list nat) :
  suppress boxes scores classes theta = Ok out ->
  0 <= theta <= 1
  /\ exists idx,
       idx = nms_select boxes theta (Nat.min max_output_size (length boxes))
               (DecreasingArgSort scores (length boxes))
       /\ out = (gather box0 boxes idx, gather 0 scores idx,
                 gather 0%nat classes idx).
Proof.
  unfold suppress, non_max_suppression.
  destruct (Rgeb theta 0) eqn:E0; [|discriminate].
  destruct (Rgeb 1 theta) eqn:E1; [|discriminate].
  cbn [andb bind]. intros E; inversion E; subst.
  apply Rgeb_true in E0, E1. split; [lra|]. eauto.
Qed.

Lemma suppress_in_range (boxes : list Box) (scores : list R)
    (classes : list nat) (theta : R) :
  0 <= theta <= 1 ->
  exists out, suppress boxes scores classes theta = Ok out.
Proof.
  intros [H0 H1]. unfold suppress, non_max_suppression.
  rewrite (proj2 (Rgeb_true theta 0) H0), (proj2 (Rgeb_true 1 theta) H1).
  cbn [andb bind]. eauto.
Qed.

(** The survivors of [suppress] overlap pairwise by at most the threshold,
    and there are at most [max_output_size] of them, never more than the
    candidates. *)
Lemma suppress_pairwise (boxes : list Box) (scores : list R)
    (classes : list nat) (theta : R) (bs : list Box) (ss : list R)
    (cs : list nat) (a b : nat) :
  suppress boxes scores classes theta = Ok (bs, ss, cs) ->
  a <> b -> (a < length bs)%nat -> (b < length bs)%nat ->
  IOU (nth a bs box0) (nth b bs box0) <= theta.
Proof.
  intros H. apply suppress_Ok in H as (_ & idx & Hidx & E).
  inversion E; subst bs ss cs. clear E.
  rewrite gather_length. intros Hab Ha Hb.
  rewrite !gather_nth by assumption.
  pose proof (nms_select_pairs boxes theta
                (Nat.min max_output_size (length boxes))
                (DecreasingArgSort scores (length boxes))) as HP.
  rewrite <- Hidx in HP.
  destruct (Nat.lt_total a b) as [Hlt|[Heq|Hgt]]; [| contradiction |].
  - exact (ForallOrdPairs_nth _ 0%nat idx HP a b Hlt Hb).
  - rewrite IOU_sym. exact (ForallOrdPairs_nth _ 0%nat idx HP b a Hgt Ha).
Qed.

Lemma suppress_length (boxes : list Box) (scores : list R)
    (classes : list nat) (theta : R) (bs : list Box) (ss : list R)
    (cs : list nat) :
  suppress boxes scores classes theta = Ok (bs, ss, cs) ->
  (length bs <= length boxes)%nat
  /\ (length bs <= max_output_size)%nat
  /\ length ss = length bs
  /\ length cs = length bs.
Proof.
  intros H. apply suppress_Ok in H as (_ & idx & Hidx & E).
  inversion E; subst bs ss cs. clear E.
  rewrite !gather_length.
  pose proof (nms_select_length boxes theta
                (Nat.min max_output_size (length boxes))
                (DecreasingArgSort scores (length boxes))) as HL.
  rewrite DecreasingArgSort_length, <- Hidx in HL. lia.
Qed.

(** ** The pipeline *)

Section PipelineFacts.

Variables N_ANCHORS N_CLASSES : nat.
Variable ANCHORS : list (R * R).
Variable HIER_TREE : Node.
Variable preprocess_img : Image -> Image.
Variable model_predict : Image -> NetOut.

Let nms_input' := nms_input N_ANCHORS N_CLASSES ANCHORS HIER_TREE
                    preprocess_img model_predict.
Let predict' := predict N_ANCHORS N_CLASSES ANCHORS HIER_TREE
                  preprocess_img model_predict.

Lemma nms_input_inv (img : Image) (tau : R) (mode : Z)
    (bs : list Box) (ss : list R) (cs : list nat) :
  nms_input' img tau mode = Ok (bs, ss, cs) ->
  exists prediction anchors box_classes box_class_scores,
    reshape_prediction N_ANCHORS N_CLASSES (model_predict (preprocess_img img))
      = Ok prediction
    /\ anchors_tensor N_ANCHORS ANCHORS = Ok anchors
    /\ resolve_scores N_ANCHORS N_CLASSES HIER_TREE prediction mode
       = Ok (box_classes, box_class_scores)
    /\ (bs, ss, cs)
       = let f := detection_filter (decode_boxes N_ANCHORS prediction anchors)
                    box_class_scores box_classes tau in
         (rescale img (fst (fst f)), snd (fst f), snd f).
Proof.
  unfold nms_input', nms_input.
  destruct (reshape_prediction _ _ _) as [prediction|e] eqn:E1; [|discriminate].
  destruct (anchors_tensor _ _) as [anchors|e] eqn:E2; [|discriminate].
  cbn [bind].
  destruct (resolve_scores _ _ _ _ _) as [[box_classes box_class_scores]|e]
    eqn:E3; [|discriminate].
  cbn [bind fst snd]. unfold detection_filter.
  intros E. inversion E; subst.
  exists prediction, anchors, box_classes, box_class_scores.
  repeat split; assumption.
Qed.

Lemma predict_inv (img : Image) (theta tau : R) (mode : Z)
    (bs : list Box) (ss : list R) (cs : list Z) :
  predict' img theta tau mode = Ok (bs, ss, cs) ->
  exists boxes scores classes kept_classes,
    nms_input' img tau mode = Ok (boxes, scores, classes)
    /\ suppress boxes scores classes theta = Ok (bs, ss, kept_classes)
    /\ cs = map (adjust_class HIER_TREE mode) kept_classes.
Proof.
  unfold predict', predict, nms_input'.
  destruct (nms_input _ _ _ _ _ _ _ _ _) as [[[boxes scores] classes]|e]
    eqn:E1; [|discriminate].
  cbn [bind].
  destruct (suppress _ _ _ _) as [[[kb ks] kc]|e] eqn:E2; [|discriminate].
  cbn [bind]. intros E. inversion E; subst.
  exists boxes, scores, classes, kc. repeat split; assumption || reflexivity.
Qed.

End PipelineFacts.

(** ** Evaluating the pipeline on the sample inputs *)

Module SampleRuns.
Import Samples.

Ltac run_stage :=
  cbv [box_class_and_score box_scores box_confidence decode_boxes
       decode_box box_mins box_maxes box_xy box_wh c_xy netout_size
       rescale image_dims scale_box detection_filter prediction_mask
       resolve_scores cells suppress non_max_suppression max_output_size
       DecreasingArgSort gather adjust_class K_argmax K_max
       reshape_prediction zero_net const_net out_h out_w out_at GRID_H GRID_W
       pred_at Nat.eqb orb andb bind anchors_tensor anchors1 length
       seq flat_map map app mapM Z.eqb Pos.eqb
       argmax_from vmax fst snd
       boolean_mask nth Nat.mul Nat.add
       img_height img_width img_200x100 resize416 Y1 X1 Y2 X2
       Nat.min fold_right insert_desc nms_select filter negb
       node_children flat_tree Z.of_nat Z.sub Z.add Z.opp Z.pos_sub
       Pos.of_succ_nat Pos.succ].

Ltac threshold_in_range :=
  run_stage;
  rewrite (proj2 (Rgeb_true 0.5 0)) by lra;
  rewrite (proj2 (Rgeb_true 1 0.5)) by lra;
  run_stage.

Lemma nms_input_zero_1x1 :
  nms_input1 (zero_net 1 1) img_200x100 0.5 0
  = Ok ([mkBox 0 0 200 100], [1 / 2], [0%nat]).
Proof.
  unfold nms_input1, nms_input. run_stage.
  rewrite !sigmoid_0, !exp_0.
  rewrite (proj2 (Rgeb_true (1 / 2) 0.5)) by lra.
  run_stage. rewrite !INR_IZR_INZ. run_stage.
  repeat f_equal; lra.
Qed.

Lemma predict_zero_1x1 :
  predict1 (zero_net 1 1) img_200x100 0.5 0.5 0
  = Ok ([mkBox 0 0 200 100], [1 / 2], [(-1)%Z]).
Proof.
  unfold predict1, predict.
  fold (nms_input1 (zero_net 1 1) img_200x100 0.5 0).
  rewrite nms_input_zero_1x1. threshold_in_range. reflexivity.
Qed.

Lemma nms_input_zero_1x2 :
  nms_input1 (zero_net 1 2) img_200x100 0.5 0
  = Ok ([mkBox 0 0 200 50; mkBox 0 50 200 100], [1 / 2; 1 / 2], [0%nat; 0%nat]).
Proof.
  unfold nms_input1, nms_input. run_stage.
  rewrite !sigmoid_0, !exp_0.
  rewrite !(proj2 (Rgeb_true (1 / 2) 0.5)) by lra.
  run_stage. rewrite !INR_IZR_INZ. run_stage.
  repeat f_equal; lra.
Qed.

Lemma IOU_side_by_side :
  IOU (mkBox 0 0 200 50) (mkBox 0 50 200 100) = 0.
Proof.
  unfold IOU. cbv zeta. cbn [Y1 X1 Y2 X2].
  replace (Rmin 0 200) with 0 by (unfold Rmin; destruct (Rle_dec _ _); lra).
  replace (Rmax 0 200) with 200 by (unfold Rmax; destruct (Rle_dec _ _); lra).
  replace (Rmin 0 50) with 0 by (unfold Rmin; destruct (Rle_dec _ _); lra).
  replace (Rmax 0 50) with 50 by (unfold Rmax; destruct (Rle_dec _ _); lra).
  replace (Rmin 50 100) with 50 by (unfold Rmin; destruct (Rle_dec _ _); lra).
  replace (Rmax 50 100) with 100 by (unfold Rmax; destruct (Rle_dec _ _); lra).
  rewrite (proj2 (Rgeb_false 0 ((200 - 0) * (50 - 0)))) by lra.
  rewrite (proj2 (Rgeb_false 0 ((200 - 0) * (100 - 50)))) by lra.
  cbn [orb].
  replace (Rmin 50 100) with 50 by (unfold Rmin; destruct (Rle_dec _ _); lra).
  replace (Rmax 0 50) with 50 by (unfold Rmax; destruct (Rle_dec _ _); lra).
  replace (50 - 50) with 0 by lra.
  replace (Rmax 0 0) with 0 by (unfold Rmax; destruct (Rle_dec _ _); lra).
  unfold Rdiv. ring.
Qed.

Lemma predict_zero_1x2 :
  predict1 (zero_net 1 2) img_200x100 0.5 0.5 0
  = Ok ([mkBox 0 0 200 50; mkBox 0 50 200 100], [1 / 2; 1 / 2],
        [(-1)%Z; (-1)%Z]).
Proof.
  unfold predict1, predict.
  fold (nms_input1 (zero_net 1 2) img_200x100 0.5 0).
  rewrite nms_input_zero_1x2. threshold_in_range.
  rewrite (proj2 (Rgeb_true (1 / 2) (1 / 2))) by lra.
  rewrite IOU_side_by_side.
  rewrite (proj2 (Rgtb_false 0 0.5)) by lra.
  reflexivity.
Qed.

Lemma nms_input_objectness_09 :
  nms_input1 (const_net [0; 0; 0; 0; ln 9; 2; 1; 0.1]) img_200x100 0.4 0
  = Ok ([mkBox 0 0 200 100], [0.9], [0%nat]).
Proof.
  unfold nms_input1, nms_input. run_stage.
  rewrite !sigmoid_0, !exp_0, sigmoid_ln by lra.
  rewrite (proj2 (Rgeb_true (9 / (9 + 1)) 0.4)) by lra.
  run_stage. rewrite !INR_IZR_INZ. run_stage.
  repeat f_equal; lra.
Qed.

Lemma predict_objectness_09 :
  predict1 (const_net [0; 0; 0; 0; ln 9; 2; 1; 0.1]) img_200x100 0.5 0.4 0
  = Ok ([mkBox 0 0 200 100], [0.9], [(-1)%Z]).
Proof.
  unfold predict1, predict.
  fold (nms_input1 (const_net [0; 0; 0; 0; ln 9; 2; 1; 0.1]) img_200x100 0.4 0).
  rewrite nms_input_objectness_09. threshold_in_range. reflexivity.
Qed.

End SampleRuns.

(** ** Class score resolver *)

Lemma In_firstn {A : Type} (n : nat) (l : list A) (x : A) :
  In x (firstn n l) -> In x l.
Proof.
  revert l; induction n as [|n IH]; intros [|y l]; simpl; try easy.
  intros [->|H]; [now left | right; now apply IH].
Qed.

Lemma In_skipn {A : Type} (n : nat) (l : list A) (x : A) :
  In x (skipn n l) -> In x l.
Proof.
  revert l; induction n as [|n IH]; intros [|y l]; simpl; try easy.
  intros H. right. now apply IH.
Qed.

Lemma py_slice_In {A : Type} (l : list A) (start stop : Z) (x : A) :
  In x (py_slice l start stop) -> In x l.
Proof. unfold py_slice. intros H. eapply In_skipn, In_firstn, H. Qed.

Lemma sum_R_ge_In (l : list R) (y : R) :
  Forall (fun x => 0 <= x) l -> In y l -> 0 <= y <= sum_R l.
Proof.
  induction 1 as [|x l Hx Hl IH]; simpl; [easy|].
  assert (0 <= sum_R l).
  { clear IH. induction Hl; simpl; lra. }
  intros [->|Hy]; [lra|]. specialize (IH Hy). lra.
Qed.

Lemma softmax_bounds (l : list R) (x : R) :
  In x (softmax l) -> 0 <= x <= 1.
Proof.
  unfold softmax. intros H. apply in_map_iff in H as (v & <- & Hv).
  assert (Hs : 0 <= exp v <= sum_R (map exp l)).
  { apply sum_R_ge_In; [|now apply in_map].
    apply Forall_forall. intros y Hy. apply in_map_iff in Hy as (w & <- & _).
    left. apply exp_pos. }
  pose proof (exp_pos v) as Hp.
  assert (Hinv : 0 < / sum_R (map exp l)) by (apply Rinv_0_lt_compat; lra).
  split.
  - unfold Rdiv. apply Rmult_le_pos; lra.
  - apply Rmult_le_reg_r with (sum_R (map exp l)); [lra|].
    unfold Rdiv. rewrite Rmult_assoc, Rinv_l by lra. lra.
Qed.

Lemma broadcast_mul_bounds (c : R) (a b r : list R) :
  Forall (fun x => 0 <= x <= c) a ->
  Forall (fun y => 0 <= y <= 1) b ->
  broadcast_mul a b = Ok r ->
  Forall (fun z => 0 <= z <= c) r.
Proof.
  intros Ha Hb.
  assert (Hprod : forall x y, 0 <= x <= c -> 0 <= y <= 1 -> 0 <= x * y <= c).
  { intros x y Hx Hy. split; [apply Rmult_le_pos; lra | nra]. }
  assert (Hl : forall x, 0 <= x <= c ->
                 Forall (fun z => 0 <= z <= c) (map (fun y => x * y) b)).
  { intros x Hx. apply Forall_forall. intros z Hz.
    apply in_map_iff in Hz as (y & <- & Hy).
    apply Hprod; [assumption|]. exact (proj1 (Forall_forall _ _) Hb y Hy). }
  assert (Hr : forall y, 0 <= y <= 1 ->
                 Forall (fun z => 0 <= z <= c) (map (fun x => x * y) a)).
  { intros y Hy. apply Forall_forall. intros z Hz.
    apply in_map_iff in Hz as (x & <- & Hx).
    apply Hprod; [|assumption]. exact (proj1 (Forall_forall _ _) Ha x Hx). }
  assert (Hz : Forall (fun z => 0 <= z <= c)
                 (map (fun p => fst p * snd p) (combine a b))).
  { apply Forall_forall. intros z Hz.
    apply in_map_iff in Hz as ([x y] & <- & Hxy). simpl.
    apply Hprod.
    - exact (proj1 (Forall_forall _ _) Ha x (in_combine_l _ _ _ _ Hxy)).
    - exact (proj1 (Forall_forall _ _) Hb y (in_combine_r _ _ _ _ Hxy)). }
  unfold broadcast_mul.
  destruct a as [|x [|x' a]]; destruct b as [|y [|y' b]];
    try (destruct (Nat.eqb _ _));
    intros E; inversion E; subst; clear E;
    try exact Hz;
    try (apply Hl; now inversion Ha);
    try (apply Hr; now inversion Hb).
Qed.

Lemma mapM_Ok {A B : Type} (f : A -> result B) (g : A -> B) (l : list A) :
  (forall a, In a l -> f a = Ok (g a)) -> mapM f l = Ok (map g l).
Proof.
  induction l as [|a l IH]; intros H; simpl; [reflexivity|].
  rewrite (H a) by now left. simpl.
  rewrite IH by (intros; apply H; now right). reflexivity.
Qed.

Lemma mapM_Forall {A B : Type} (f : A -> result B) (P : B -> Prop)
    (l : list A) (rs : list B) :
  (forall a b, In a l -> f a = Ok b -> P b) ->
  mapM f l = Ok rs -> Forall P rs.
Proof.
  revert rs; induction l as [|a l IH]; intros rs H; simpl.
  - intros E; inversion E. constructor.
  - destruct (f a) as [b|e] eqn:Ea; simpl; [|discriminate].
    destruct (mapM f l) as [bs|e] eqn:El; simpl; [|discriminate].
    intros E; inversion E; subst. constructor.
    + apply (H a); [now left | assumption].
    + apply IH; [|reflexivity]. intros a' b' Ha'. apply H. now right.
Qed.

(** Whatever the mode, every class score of a position lies between 0 and
    the objectness score of that position. *)
Lemma box_scores_bounds (N_CLASSES : nat) (HIER_TREE : Node) (p : Prediction)
    (i j k : nat) (mode : Z) (s : list R) :
  box_scores N_CLASSES HIER_TREE p i j k mode = Ok s ->
  Forall (fun x => 0 <= x <= box_confidence p i j k) s.
Proof.
  pose proof (sigmoid_pos (pred_at p i j k 4)) as Hc.
  fold (box_confidence p i j k) in Hc.
  assert (Hconf : Forall (fun x => 0 <= x <= box_confidence p i j k)
                    [box_confidence p i j k]).
  { constructor; [lra | constructor]. }
  assert (Hsm : forall l, Forall (fun y => 0 <= y <= 1) (softmax l)).
  { intros l. apply Forall_forall. intros y. apply softmax_bounds. }
  unfold box_scores.
  destruct (mode =? 0)%Z.
  { intros E; inversion E; subst. exact Hconf. }
  destruct (mode =? 1)%Z.
  { destruct (first_child _) as [c0|e]; [|discriminate]. cbn [bind].
    intros E. eapply broadcast_mul_bounds; [exact Hconf | apply Hsm | exact E]. }
  destruct (mode =? 2)%Z; [|discriminate].
  destruct (first_child _) as [c0|e]; [|discriminate]. cbn [bind].
  destruct (broadcast_mul _ _) as [parent_scores|e] eqn:Ep; [|discriminate].
  cbn [bind].
  apply (broadcast_mul_bounds (box_confidence p i j k)) in Ep;
    [| exact Hconf | apply Hsm].
  destruct (mapM _ _) as [scores|e] eqn:Em; [|discriminate]. cbn [bind].
  intros E; inversion E; subst. apply Forall_concat.
  eapply mapM_Forall; [|exact Em].
  intros node r _. cbv beta.
  destruct (first_child _) as [n0|e]; [|discriminate]. cbn [bind].
  intros Er. eapply broadcast_mul_bounds; [|apply Hsm|exact Er].
  apply Forall_forall. intros x Hx. apply py_slice_In in Hx.
  exact (proj1 (Forall_forall _ _) Ep x Hx).
Qed.

Lemma vmax_le (c d : R) (v : list R) :
  d <= c -> Forall (fun x => x <= c) v -> vmax d v <= c.
Proof.
  revert d; induction v as [|x v IH]; intros d Hd Hv; simpl; [assumption|].
  inversion Hv; subst. apply IH; [|assumption]. now apply Rmax_lub.
Qed.

Lemma box_class_and_score_bounds (N_CLASSES : nat) (HIER_TREE : Node)
    (p : Prediction) (i j k : nat) (mode : Z) (c : nat) (s : R) :
  box_class_and_score N_CLASSES HIER_TREE p i j k mode = Ok (c, s) ->
  s <= box_confidence p i j k.
Proof.
  unfold box_class_and_score.
  destruct (box_scores _ _ _ _ _ _ _) as [v|e] eqn:Ev; [|discriminate].
  cbn [bind]. apply box_scores_bounds in Ev.
  destruct v as [|x v]; [discriminate|].
  intros E; inversion E; subst. unfold K_max.
  inversion Ev; subst.
  apply vmax_le; [lra|].
  eapply Forall_impl; [|eassumption]. cbv beta. intros; lra.
Qed.

Lemma boolean_mask_all_false {A B : Type} (f : B -> bool) (t : list A)
    (s : list B) :
  Forall (fun y => f y = false) s -> boolean_mask t (map f s) = [].
Proof.
  revert s; induction t as [|x t IH]; intros s Hs; [reflexivity|].
  destruct s as [|y s]; [reflexivity|]. simpl.
  inversion Hs; subst.
  replace (f y) with false by (symmetry; assumption). now apply IH.
Qed.

Lemma boolean_mask_In {A : Type} (t : list A) (mask : list bool) (y : A) :
  In y (boolean_mask t mask) -> In y t.
Proof.
  revert mask; induction t as [|x t IH]; intros [|b mask]; simpl; try easy.
  destruct b; simpl; [intros [->|H]; [now left | right; eauto] |].
  intros H. right. eauto.
Qed.

Lemma resolve_scores_flat (N_ANCHORS N_CLASSES : nat) (HIER_TREE : Node)
    (p : Prediction) :
  resolve_scores N_ANCHORS N_CLASSES HIER_TREE p 0
  = Ok (map (fun _ => 0%nat) (cells N_ANCHORS p),
        map (fun c => match c with (i, j, k) => sigmoid (pred_at p i j k 4) end)
            (cells N_ANCHORS p)).
Proof.
  unfold resolve_scores.
  rewrite mapM_Ok
    with (g := fun c => match c with
                        | (i, j, k) => (0%nat, sigmoid (pred_at p i j k 4))
                        end).
  - cbn [bind]. rewrite !map_map. f_equal. f_equal.
    + apply map_ext. now intros [[i j] k].
    + apply map_ext. now intros [[i j] k].
  - now intros [[i j] k] _.
Qed.

Section Claims.

Variables N_ANCHORS N_CLASSES : nat.
Variable ANCHORS : list (R * R).
Variable HIER_TREE : Node.
Variable preprocess_img : Image -> Image.
Variable model_predict : Image -> NetOut.

Let nms_input' := nms_input N_ANCHORS N_CLASSES ANCHORS HIER_TREE
                    preprocess_img model_predict.
Let predict' := predict N_ANCHORS N_CLASSES ANCHORS HIER_TREE
                  preprocess_img model_predict.

(** C1 (as the code has it). In mode 0 the score vector of every grid cell
    and anchor is the single entry sigmoid(objectness logit): the class
    logits are not used, the best class index is 0, the best score is the
    objectness, and every class id that [predict] returns is -1. With
    objectness 0.9 and class logits [2.0, 1.0, 0.1] the decode returns
    class -1 with score 0.9. *)
Theorem flat_mode_scores_objectness_only (p : Prediction) (i j k : nat) :
  box_scores N_CLASSES HIER_TREE p i j k 0 = Ok [sigmoid (pred_at p i j k 4)]
  /\ box_class_and_score N_CLASSES HIER_TREE p i j k 0
     = Ok (0%nat, sigmoid (pred_at p i j k 4))
  /\ (forall img theta tau bs ss cs,
        predict' img theta tau 0 = Ok (bs, ss, cs) ->
        Forall (fun c => c = (-1)%Z) cs /\ length cs = length ss)
  /\ Samples.predict1 (Samples.const_net [0; 0; 0; 0; ln 9; 2; 1; 0.1])
       Samples.img_200x100 0.5 0.4 0
     = Ok ([mkBox 0 0 200 100], [0.9], [(-1)%Z]).
Proof.
  split; [reflexivity | split; [reflexivity|]].
  split; [|exact SampleRuns.predict_objectness_09].
  intros img theta tau bs ss cs H.
  apply predict_inv in H as (boxes & scores & classes & kc & Hin & Hk & ->).
  apply nms_input_inv in Hin
    as (prediction & anchors & box_classes & box_class_scores
        & _ & _ & Hres & Heq).
  cbv zeta in Heq. inversion Heq as [[Hb Hs Hc]]. clear Heq.
  rewrite resolve_scores_flat in Hres. inversion Hres as [[Hcls Hscs]].
  pose proof (suppress_length _ _ _ _ _ _ _ Hk) as (_ & _ & Hls & Hlc).
  apply suppress_Ok in Hk as (_ & idx & _ & Ek). inversion Ek; subst kc.
  split; [|rewrite length_map; congruence].
  apply Forall_forall. intros c Hcin.
  apply in_map_iff in Hcin as (c' & <- & Hc').
  unfold gather in Hc'. apply in_map_iff in Hc' as (n & <- & _).
  assert (Hn : nth n classes 0%nat = 0%nat).
  { destruct (Nat.lt_ge_cases n (length classes)) as [Hlt|Hge].
    - pose proof (nth_In classes 0%nat Hlt) as Hin.
      rewrite Hc in Hin at 2. unfold detection_filter in Hin.
      cbn [snd] in Hin. apply boolean_mask_In in Hin.
      rewrite <- Hcls in Hin. apply in_map_iff in Hin as (? & <- & _).
      reflexivity.
    - now apply nth_overflow. }
  rewrite Hn. reflexivity.
Qed.

(** C2 (as the code has it). The stages run in the order geometry
    transform, class-score resolution, score-threshold filtering,
    coordinate rescaling, non-maximum suppression: the boxes handed to the
    suppression are already in image-pixel space, and its survivors are
    returned as they are. *)
Theorem predict_stage_order (img : Image) (theta tau : R) (mode : Z)
    (bs : list Box) (ss : list R) (cs : list Z) :
  predict' img theta tau mode = Ok (bs, ss, cs) ->
  exists prediction anchors box_classes box_class_scores kept_classes,
    reshape_prediction N_ANCHORS N_CLASSES (model_predict (preprocess_img img))
      = Ok prediction
    /\ anchors_tensor N_ANCHORS ANCHORS = Ok anchors
    /\ resolve_scores N_ANCHORS N_CLASSES HIER_TREE prediction mode
       = Ok (box_classes, box_class_scores)
    /\ let filtered := detection_filter (decode_boxes N_ANCHORS prediction anchors)
                         box_class_scores box_classes tau in
       let scaled := rescale img (fst (fst filtered)) in
       nms_input' img tau mode = Ok (scaled, snd (fst filtered), snd filtered)
       /\ suppress scaled (snd (fst filtered)) (snd filtered) theta
          = Ok (bs, ss, kept_classes)
       /\ cs = map (adjust_class HIER_TREE mode) kept_classes.
Proof.
  intros H.
  apply predict_inv in H as (boxes & scores & classes & kc & Hin & Hk & ->).
  pose proof Hin as Hin'.
  apply nms_input_inv in Hin'
    as (prediction & anchors & box_classes & box_class_scores
        & Hp & Ha & Hres & Heq).
  cbv zeta in Heq. inversion Heq; subst.
  exists prediction, anchors, box_classes, box_class_scores, kc.
  cbv zeta. repeat split; assumption || reflexivity.
Qed.

(** C4. After the suppression with threshold theta, any two distinct
    returned boxes overlap by at most theta. *)
Theorem nms_survivors_pairwise_iou (img : Image) (theta tau : R) (mode : Z)
    (bs : list Box) (ss : list R) (cs : list Z) (a b : nat) :
  predict' img theta tau mode = Ok (bs, ss, cs) ->
  a <> b -> (a < length bs)%nat -> (b < length bs)%nat ->
  IOU (nth a bs box0) (nth b bs box0) <= theta.
Proof.
  intros H.
  apply predict_inv in H as (boxes & scores & classes & kc & _ & Hk & _).
  exact (suppress_pairwise _ _ _ _ _ _ _ a b Hk).
Qed.

(** C6 (as the code has it). The number of returned detections is at most
    the number of candidates handed to the suppression and at most 10, the
    cap written in the code; scores and classes come in the same number. *)
Theorem nms_output_bounded (img : Image) (theta tau : R) (mode : Z)
    (bs : list Box) (ss : list R) (cs : list Z) :
  predict' img theta tau mode = Ok (bs, ss, cs) ->
  exists boxes scores classes,
    nms_input' img tau mode = Ok (boxes, scores, classes)
    /\ (length bs <= length boxes)%nat
    /\ (length bs <= 10)%nat
    /\ length ss = length bs
    /\ length cs = length bs.
Proof.
  intros H.
  apply predict_inv in H as (boxes & scores & classes & kc & Hin & Hk & ->).
  exists boxes, scores, classes.
  pose proof (suppress_length _ _ _ _ _ _ _ Hk) as HL.
  unfold max_output_size in HL.
  rewrite length_map. intuition.
Qed.

(** C9. Rescaling multiplies the y coordinates by the height and the x
    coordinates by the width of the image passed to [predict], whatever
    size the pre-processing gives the network input; the box x1 = 0.5,
    y1 = 0.5, x2 = 0.6, y2 = 0.6 on an image of height 200 and width 100
    becomes x1 = 50, y1 = 100, x2 = 60, y2 = 120. *)
Theorem rescale_by_image_dims (img : Image) (boxes : list Box) :
  rescale img boxes
  = map (fun b => {| Y1 := Y1 b * INR (img_height img);
                     X1 := X1 b * INR (img_width img);
                     Y2 := Y2 b * INR (img_height img);
                     X2 := X2 b * INR (img_width img) |}) boxes
  /\ (img_height img = 200%nat -> img_width img = 100%nat ->
      rescale img [{| Y1 := 0.5; X1 := 0.5; Y2 := 0.6; X2 := 0.6 |}]
      = [{| Y1 := 100; X1 := 50; Y2 := 120; X2 := 60 |}])
  /\ (forall tau mode bs ss cs,
        nms_input' img tau mode = Ok (bs, ss, cs) ->
        exists normalized,
          length normalized = length bs
          /\ bs = map (fun b => {| Y1 := Y1 b * INR (img_height img);
                                   X1 := X1 b * INR (img_width img);
                                   Y2 := Y2 b * INR (img_height img);
                                   X2 := X2 b * INR (img_width img) |})
                      normalized
          /\ exists prediction anchors,
               reshape_prediction N_ANCHORS N_CLASSES
                 (model_predict (preprocess_img img)) = Ok prediction
               /\ anchors_tensor N_ANCHORS ANCHORS = Ok anchors
               /\ forall b, In b normalized ->
                            In b (decode_boxes N_ANCHORS prediction anchors)).
Proof.
  split; [reflexivity | split].
  - intros Hh Hw. unfold rescale, image_dims, scale_box. rewrite Hh, Hw.
    rewrite !INR_IZR_INZ. simpl Z.of_nat. simpl map.
    f_equal. f_equal; lra.
  - intros tau mode bs ss cs H.
    apply nms_input_inv in H
      as (prediction & anchors & box_classes & box_class_scores
          & Hp & Ha & _ & Heq).
    cbv zeta in Heq. inversion Heq as [[Hb Hs Hc]]. clear Heq.
    exists (fst (fst (detection_filter (decode_boxes N_ANCHORS prediction anchors)
                        box_class_scores box_classes tau))).
    split; [unfold rescale; now rewrite length_map|].
    split; [reflexivity|].
    exists prediction, anchors. repeat split; try assumption.
    intros b Hin. unfold detection_filter in Hin. cbn [fst] in Hin.
    now apply boolean_mask_In in Hin.
Qed.

End Claims.

Lemma reshape_prediction_Ok (N_ANCHORS N_CLASSES : nat) (o : NetOut)
    (p : Prediction) :
  reshape_prediction N_ANCHORS N_CLASSES o = Ok p ->
  GRID_H p = out_h o /\ GRID_W p = out_w o
  /\ (0 < out_h o)%nat /\ (0 < out_w o)%nat /\ (0 < N_ANCHORS)%nat
  /\ forall i j k c, pred_at p i j k c = out_at o i j (k * (N_CLASSES + 5) + c).
Proof.
  unfold reshape_prediction.
  destruct (Nat.eqb_spec (out_h o) 0); [discriminate|].
  destruct (Nat.eqb_spec (out_w o) 0); [discriminate|].
  destruct (Nat.eqb_spec N_ANCHORS 0); [discriminate|].
  cbn [orb]. intros E; inversion E; subst. cbn.
  repeat split; lia.
Qed.

Lemma reshape_prediction_nonempty (N_ANCHORS N_CLASSES : nat) (o : NetOut) :
  (0 < out_h o)%nat -> (0 < out_w o)%nat -> (0 < N_ANCHORS)%nat ->
  exists p, reshape_prediction N_ANCHORS N_CLASSES o = Ok p.
Proof.
  intros Hh Hw Ha. unfold reshape_prediction.
  destruct (Nat.eqb_spec (out_h o) 0); [lia|].
  destruct (Nat.eqb_spec (out_w o) 0); [lia|].
  destruct (Nat.eqb_spec N_ANCHORS 0); [lia|].
  cbn [orb]. eauto.
Qed.

Lemma suppress_nil (scores : list R) (classes : list nat) (theta : R)
    (out : list Box * list R * list nat) :
  suppress [] scores classes theta = Ok out -> out = ([], [], []).
Proof.
  intros H. apply suppress_Ok in H as (_ & idx & -> & ->). reflexivity.
Qed.

Section ZeroPrediction.

Variables N_ANCHORS N_CLASSES : nat.
Variable ANCHORS : list (R * R).
Variable HIER_TREE : Node.
Variable preprocess_img : Image -> Image.
Variable model_predict : Image -> NetOut.

Let predict' := predict N_ANCHORS N_CLASSES ANCHORS HIER_TREE
                  preprocess_img model_predict.

(** C3 (as the code has it). On a network output that is zero everywhere,
    every score threshold strictly above 0.5 leaves no detection: whenever
    [predict] returns, in any mode, it returns the empty detection set, and
    in mode 0 with a non-empty grid, as many anchors as [N_ANCHORS] and an
    overlap threshold in [0, 1] it does return. *)
Theorem zero_prediction_above_half (img : Image) (theta tau : R) (mode : Z) :
  (forall i j c, out_at (model_predict (preprocess_img img)) i j c = 0) ->
  1 / 2 < tau ->
  (forall out, predict' img theta tau mode = Ok out -> out = ([], [], []))
  /\ ((0 < out_h (model_predict (preprocess_img img)))%nat ->
      (0 < out_w (model_predict (preprocess_img img)))%nat ->
      (0 < N_ANCHORS)%nat ->
      length ANCHORS = N_ANCHORS ->
      0 <= theta <= 1 ->
      predict' img theta tau 0 = Ok ([], [], [])).
Proof.
  intros Hzero Htau.
  assert (Hempty : forall m out,
            predict' img theta tau m = Ok out -> out = ([], [], [])).
  { intros m [[bs ss] cs] H.
    apply predict_inv in H as (boxes & scores & classes & kc & Hin & Hk & ->).
    apply nms_input_inv in Hin
      as (prediction & anchors & box_classes & box_class_scores
          & Hp & _ & Hres & Heq).
    apply reshape_prediction_Ok in Hp as (_ & _ & _ & _ & _ & Hat).
    assert (Hlow : Forall (fun s => Rgeb s tau = false) box_class_scores).
    { unfold resolve_scores in Hres.
      destruct (mapM _ _) as [rs|e] eqn:Em; [|discriminate].
      cbn [bind] in Hres. inversion Hres; subst.
      apply Forall_forall. intros s Hs.
      apply in_map_iff in Hs as ([c s'] & <- & Hcs). cbn [snd].
      apply Rgeb_false.
      assert (HF : Forall (fun r => snd r <= 1 / 2) rs).
      { eapply mapM_Forall; [|exact Em].
        intros [[i j] k] [c0 s0] _ Eb. cbn [snd].
        apply box_class_and_score_bounds in Eb.
        unfold box_confidence in Eb. rewrite Hat, Hzero, sigmoid_0 in Eb.
        exact Eb. }
      pose proof (proj1 (Forall_forall _ _) HF _ Hcs) as Hle.
      cbn [snd] in Hle. lra. }
    cbv zeta in Heq. unfold detection_filter, prediction_mask in Heq.
    rewrite !(boolean_mask_all_false _ _ _ Hlow) in Heq.
    cbn [fst snd rescale map] in Heq. inversion Heq; subst.
    apply suppress_nil in Hk. inversion Hk; subst. reflexivity. }
  split; [apply Hempty|].
  intros Hh Hw Ha Hlen Htheta.
  destruct (predict' img theta tau 0) as [out|e] eqn:E.
  - f_equal. now apply (Hempty 0%Z).
  - exfalso. revert E. unfold predict', predict, nms_input.
    destruct (reshape_prediction_nonempty N_ANCHORS N_CLASSES _ Hh Hw Ha)
      as [p ->].
    unfold anchors_tensor. rewrite (proj2 (Nat.eqb_eq _ _) Hlen).
    cbn [bind]. rewrite resolve_scores_flat. cbn [bind fst snd].
    destruct (detection_filter _ _ _ _) as [[fb fs] fc].
    cbn [bind].
    destruct (suppress_in_range (rescale img fb) fs fc theta Htheta)
      as [[[ob os] oc] ->].
    discriminate.
Qed.

End ZeroPrediction.

(** ** The claims on the sample inputs *)

(** C1 fails as stated: with objectness 0.9 and class logits
    [2.0, 1.0, 0.1] the mode 0 decode does not return class 0 with score
    0.9 * softmax(2.0); it returns class -1 with score 0.9. *)
Lemma flat_mode_not_objectness_times_softmax :
  ~ (exists bs,
       Samples.predict1 (Samples.const_net [0; 0; 0; 0; ln 9; 2; 1; 0.1])
         Samples.img_200x100 0.5 0.4 0
       = Ok (bs, [0.9 * nth 0 (softmax [2; 1; 0.1]) 0], [0%Z])).
Proof.
  intros [bs E]. rewrite SampleRuns.predict_objectness_09 in E.
  inversion E.
Qed.

Lemma flat_mode_scores_objectness_only_witness :
  Forall (fun c => c = (-1)%Z) [(-1)%Z]
  /\ length [(-1)%Z] = length [0.9].
Proof.
  apply (proj1 (proj2 (proj2
           (flat_mode_scores_objectness_only 1 3 Samples.anchors1
              Samples.flat_tree Samples.resize416
              (Samples.const_net [0; 0; 0; 0; ln 9; 2; 1; 0.1])
              (mkPrediction 1 1 (fun _ _ _ _ => 0)) 0 0 0)))
           Samples.img_200x100 0.5 0.4 [mkBox 0 0 200 100] [0.9] [(-1)%Z]).
  exact SampleRuns.predict_objectness_09.
Defined.

(** C2 fails as stated: on the all-zero 1 x 1 output and a 200 x 100 image
    the boxes handed to the suppression are not the filtered boxes in the
    normalized space. *)
Lemma nms_input_not_prescaled :
  ~ (exists prediction anchors box_classes box_class_scores ss cs,
       reshape_prediction 1 3
         (Samples.zero_net 1 1 (Samples.resize416 Samples.img_200x100))
       = Ok prediction
       /\ anchors_tensor 1 Samples.anchors1 = Ok anchors
       /\ resolve_scores 1 3 Samples.flat_tree prediction 0
          = Ok (box_classes, box_class_scores)
       /\ Samples.nms_input1 (Samples.zero_net 1 1) Samples.img_200x100 0.5 0
          = Ok (fst (fst (detection_filter (decode_boxes 1 prediction anchors)
                            box_class_scores box_classes 0.5)), ss, cs)).
Proof.
  intros (p & a & cls & scs & ss & cs & Hp & Ha & Hr & Hn).
  rewrite SampleRuns.nms_input_zero_1x1 in Hn.
  inversion Hp; subst p. inversion Ha; subst a.
  rewrite resolve_scores_flat in Hr. inversion Hr; subst cls scs. clear Hp Ha Hr.
  inversion Hn as [[Hb Hs Hc]]. clear Hn Hs Hc.
  revert Hb. SampleRuns.run_stage.
  rewrite !sigmoid_0, !exp_0.
  rewrite (proj2 (Rgeb_true (1 / 2) 0.5)) by lra.
  intros Hb. inversion Hb as [[H1 H2 H3 H4]].
  cbn [INR] in H3. lra.
Qed.

Lemma predict_stage_order_witness :
  exists prediction anchors box_classes box_class_scores kept_classes,
    reshape_prediction 1 3
      (Samples.zero_net 1 1 (Samples.resize416 Samples.img_200x100))
    = Ok prediction
    /\ anchors_tensor 1 Samples.anchors1 = Ok anchors
    /\ resolve_scores 1 3 Samples.flat_tree prediction 0
       = Ok (box_classes, box_class_scores)
    /\ let filtered := detection_filter (decode_boxes 1 prediction anchors)
                         box_class_scores box_classes 0.5 in
       let scaled := rescale Samples.img_200x100 (fst (fst filtered)) in
       Samples.nms_input1 (Samples.zero_net 1 1) Samples.img_200x100 0.5 0
       = Ok (scaled, snd (fst filtered), snd filtered)
       /\ suppress scaled (snd (fst filtered)) (snd filtered) 0.5
          = Ok ([mkBox 0 0 200 100], [1 / 2], kept_classes)
       /\ [(-1)%Z] = map (adjust_class Samples.flat_tree 0) kept_classes.
Proof.
  apply (predict_stage_order 1 3 Samples.anchors1 Samples.flat_tree
           Samples.resize416 (Samples.zero_net 1 1) Samples.img_200x100
           0.5 0.5 0).
  exact SampleRuns.predict_zero_1x1.
Defined.

(** C3 fails as stated: at threshold 0.5 the all-zero output keeps its one
    cell, whose score is sigmoid 0 = 0.5. *)
Lemma zero_prediction_at_half_not_empty :
  Samples.predict1 (Samples.zero_net 1 1) Samples.img_200x100 0.5 0.5 0
  <> Ok ([], [], []).
Proof. rewrite SampleRuns.predict_zero_1x1. discriminate. Qed.

Lemma zero_prediction_above_half_witness :
  Samples.predict1 (Samples.zero_net 1 1) Samples.img_200x100 0.5 0.6 0
  = Ok ([], [], []).
Proof.
  apply (proj2 (zero_prediction_above_half 1 3 Samples.anchors1
                  Samples.flat_tree Samples.resize416 (Samples.zero_net 1 1)
                  Samples.img_200x100 0.5 0.6 0
                  (fun _ _ _ => eq_refl) ltac:(lra))).
  - cbn. lia.
  - cbn. lia.
  - lia.
  - reflexivity.
  - lra.
Defined.

Lemma nms_survivors_pairwise_iou_witness :
  IOU (nth 0 [mkBox 0 0 200 50; mkBox 0 50 200 100] box0)
      (nth 1 [mkBox 0 0 200 50; mkBox 0 50 200 100] box0) <= 0.5.
Proof.
  apply (nms_survivors_pairwise_iou 1 3 Samples.anchors1 Samples.flat_tree
           Samples.resize416 (Samples.zero_net 1 2) Samples.img_200x100
           0.5 0.5 0 _ [1 / 2; 1 / 2] [(-1)%Z; (-1)%Z] 0 1).
  - exact SampleRuns.predict_zero_1x2.
  - discriminate.
  - cbn. lia.
  - cbn. lia.
Defined.

(** C6 fails as stated: the cap is not an input of the decode, so a cap of
    1 chosen by a caller is not obeyed; the all-zero 1 x 2 output yields two
    detections. *)
Lemma configured_cap_not_obeyed :
  ~ (forall (cap : nat) bs ss cs,
       Samples.predict1 (Samples.zero_net 1 2) Samples.img_200x100 0.5 0.5 0
       = Ok (bs, ss, cs) ->
       (length bs <= cap)%nat).
Proof.
  intros H. specialize (H 1%nat _ _ _ SampleRuns.predict_zero_1x2).
  cbn in H. lia.
Qed.

Lemma nms_output_bounded_witness :
  exists boxes scores classes,
    Samples.nms_input1 (Samples.zero_net 1 2) Samples.img_200x100 0.5 0
    = Ok (boxes, scores, classes)
    /\ (length [mkBox 0 0 200 50; mkBox 0 50 200 100] <= length boxes)%nat
    /\ (length [mkBox 0 0 200 50; mkBox 0 50 200 100] <= 10)%nat
    /\ length [1 / 2; 1 / 2] = length [mkBox 0 0 200 50; mkBox 0 50 200 100]
    /\ length [(-1)%Z; (-1)%Z]
       = length [mkBox 0 0 200 50; mkBox 0 50 200 100].
Proof.
  apply (nms_output_bounded 1 3 Samples.anchors1 Samples.flat_tree
           Samples.resize416 (Samples.zero_net 1 2) Samples.img_200x100
           0.5 0.5 0).
  exact SampleRuns.predict_zero_1x2.
Defined.

Lemma decode_boxes_geometry_witness :
  nth_error (decode_boxes 1 (mkPrediction 1 1 (fun _ _ _ _ => 0))
               (fun k => nth k Samples.anchors1 (0, 0)))
            ((0 * 1 + 0) * 1 + 0)
  = Some {| Y1 := (sigmoid 0 + INR 0) / INR 1
                  - exp 0 * snd (nth 0 Samples.anchors1 (0, 0)) / INR 1 / 2;
            X1 := (sigmoid 0 + INR 0) / INR 1
                  - exp 0 * fst (nth 0 Samples.anchors1 (0, 0)) / INR 1 / 2;
            Y2 := (sigmoid 0 + INR 0) / INR 1
                  + exp 0 * snd (nth 0 Samples.anchors1 (0, 0)) / INR 1 / 2;
            X2 := (sigmoid 0 + INR 0) / INR 1
                  + exp 0 * fst (nth 0 Samples.anchors1 (0, 0)) / INR 1 / 2 |}.
Proof.
  apply (decode_boxes_geometry 1 Samples.anchors1
           (mkPrediction 1 1 (fun _ _ _ _ => 0))
           (fun k => nth k Samples.anchors1 (0, 0)) 0 0 0).
  - reflexivity.
  - cbn. lia.
  - cbn. lia.
  - lia.
Defined.

Lemma decode_boxes_ordered_witness :
  X1 (decode_box (mkPrediction 1 1 (fun _ _ _ _ => 0))
        (fun k => nth k Samples.anchors1 (0, 0)) 0 0 0)
  <= X2 (decode_box (mkPrediction 1 1 (fun _ _ _ _ => 0))
           (fun k => nth k Samples.anchors1 (0, 0)) 0 0 0)
  /\ Y1 (decode_box (mkPrediction 1 1 (fun _ _ _ _ => 0))
           (fun k => nth k Samples.anchors1 (0, 0)) 0 0 0)
     <= Y2 (decode_box (mkPrediction 1 1 (fun _ _ _ _ => 0))
              (fun k => nth k Samples.anchors1 (0, 0)) 0 0 0).
Proof.
  apply (decode_boxes_ordered 1 Samples.anchors1
           (mkPrediction 1 1 (fun _ _ _ _ => 0))
           (fun k => nth k Samples.anchors1 (0, 0))).
  - reflexivity.
  - repeat constructor; cbn; lra.
  - left. reflexivity.
Defined.

Lemma detection_filter_sample :
  detection_filter [mkBox 0 0 1 1; mkBox 0 0 2 2] [0.9; 0.1] [0%nat; 1%nat] 0.5
  = ([mkBox 0 0 1 1], [0.9], [0%nat]).
Proof.
  unfold detection_filter, prediction_mask. cbn [map].
  rewrite (proj2 (Rgeb_true 0.9 0.5)) by lra.
  rewrite (proj2 (Rgeb_false 0.1 0.5)) by lra.
  reflexivity.
Qed.

Lemma detection_filter_exact_idempotent_witness :
  detection_filter [mkBox 0 0 1 1] [0.9] [0%nat] 0.5
  = ([mkBox 0 0 1 1], [0.9], [0%nat]).
Proof.
  apply (proj2 (proj2 (detection_filter_exact_idempotent
                         [mkBox 0 0 1 1; mkBox 0 0 2 2] [0.9; 0.1]
                         [0%nat; 1%nat] 0.5 _ _ _ detection_filter_sample))).
Defined.

Lemma rescale_by_image_dims_witness :
  rescale Samples.img_200x100 [{| Y1 := 0.5; X1 := 0.5; Y2 := 0.6; X2 := 0.6 |}]
  = [{| Y1 := 100; X1 := 50; Y2 := 120; X2 := 60 |}]
  /\ exists normalized,
       length normalized = length [mkBox 0 0 200 100]
       /\ [mkBox 0 0 200 100]
          = map (fun b => {| Y1 := Y1 b * INR 200; X1 := X1 b * INR 100;
                             Y2 := Y2 b * INR 200; X2 := X2 b * INR 100 |})
                normalized
       /\ exists prediction anchors,
            reshape_prediction 1 3
              (Samples.zero_net 1 1 (Samples.resize416 Samples.img_200x100))
            = Ok prediction
            /\ anchors_tensor 1 Samples.anchors1 = Ok anchors
            /\ forall b, In b normalized ->
                         In b (decode_boxes 1 prediction anchors).
Proof.
  split.
  - apply (proj1 (proj2 (rescale_by_image_dims 1 3 Samples.anchors1
                           Samples.flat_tree Samples.resize416
                           (Samples.zero_net 1 1) Samples.img_200x100 [])));
      reflexivity.
  - apply (proj2 (proj2 (rescale_by_image_dims 1 3 Samples.anchors1
                           Samples.flat_tree Samples.resize416
                           (Samples.zero_net 1 1) Samples.img_200x100 []))
             0.5 0%Z [mkBox 0 0 200 100] [1 / 2] [0%nat]).
    exact SampleRuns.nms_input_zero_1x1.
Defined.

(** ** [load_lisa_data] *)

Section LoadGuards.

Variables DataFrame Series : Type.
Variable isdir : string -> bool.
Variable glob : string -> list string.
Variable read_csv : string -> result DataFrame.
Variable get_column : DataFrame -> string -> result Series.
Variable prepend : string -> Series -> Series.
Variable loc_columns : DataFrame -> string -> string -> result DataFrame.
Variable concat_series : list Series -> result Series.
Variable concat_frames : list DataFrame -> result DataFrame.
Variable select_columns : DataFrame -> list string -> result DataFrame.

Let load := Lisa.load_lisa_data DataFrame Series isdir glob read_csv
              get_column prepend loc_columns concat_series concat_frames
              select_columns.

Lemma read_all_events (path : string) (files : list string)
    (X : list Series) (Y : list DataFrame) :
  Forall (fun ev => exists f, ev = Lisa.ReadCsv f /\ In f files)
         (fst (Lisa.read_all DataFrame Series read_csv get_column prepend
                 loc_columns path files X Y)).
Proof.
  revert X Y; induction files as [|fl rest IH]; intros X Y; simpl;
    [constructor|].
  assert (Hfl : exists f, Lisa.ReadCsv fl = Lisa.ReadCsv f /\ (fl = f \/ In f rest))
    by (exists fl; auto).
  destruct (read_csv fl) as [df|e]; [|repeat constructor; exact Hfl].
  destruct (get_column df _) as [names|e]; [|repeat constructor; exact Hfl].
  destruct (loc_columns df _ _) as [labels|e]; [|repeat constructor; exact Hfl].
  specialize (IH (X ++ [prepend path names]) (Y ++ [labels])).
  destruct (Lisa.read_all _ _ _ _ _ _ _ _ _ _) as [tr r]. simpl in *.
  constructor; [exact Hfl|].
  eapply Forall_impl; [|exact IH]. cbv beta.
  intros ev (f & -> & Hf). exists f. auto.
Qed.

(** C10. [load_lisa_data] raises ValueError when the path is None and
    IOError when the path is not a directory, in both cases before any
    glob or CSV read; for an existing directory both guards are passed: the
    run goes on to the glob of [path + "*.csv"] and reads only files the
    glob returned. *)
Theorem load_lisa_data_guards (path : string) :
  load None
  = ([], Raise (ValueError "Please setup correct path to to data set"))
  /\ (isdir path = false ->
      load (Some path)
      = ([Lisa.IsDir path], Raise (IOError "Path does not exist")))
  /\ (isdir path = true ->
      exists tr r,
        load (Some path)
        = (Lisa.IsDir path :: Lisa.Glob (path ++ "*.csv")%string :: tr, r)
        /\ Forall (fun ev => exists f, ev = Lisa.ReadCsv f
                                       /\ In f (glob (path ++ "*.csv")%string))
                  tr).
Proof.
  unfold load, Lisa.load_lisa_data. split; [reflexivity | split].
  - intros ->. reflexivity.
  - intros ->. cbn [negb].
    pose proof (read_all_events path (glob (path ++ "*.csv")%string) [] [])
      as Hev.
    destruct (Lisa.read_all _ _ _ _ _ _ _ _ _ _) as [tr r].
    exists tr. eexists. split; [reflexivity | exact Hev].
Qed.

End LoadGuards.

Lemma load_lisa_data_guards_witness :
  Lisa.load_lisa_data unit unit (fun _ => false) (fun _ => [])
    (fun _ => Ok tt) (fun _ _ => Ok tt) (fun _ s => s) (fun _ _ _ => Ok tt)
    (fun _ => Ok tt) (fun _ => Ok tt) (fun _ _ => Ok tt) (Some "data/"%string)
  = ([Lisa.IsDir "data/"%string], Raise (IOError "Path does not exist")).
Proof.
  apply (proj1 (proj2 (load_lisa_data_guards unit unit (fun _ => false)
                         (fun _ => []) (fun _ => Ok tt) (fun _ _ => Ok tt)
                         (fun _ s => s) (fun _ _ _ => Ok tt) (fun _ => Ok tt)
                         (fun _ => Ok tt) (fun _ _ => Ok tt) "data/"%string))).
  reflexivity.
Defined.

(** * Further properties of the code *)

(** ** [sigmoid] and [softmax] *)

(** X1. [sigmoid] takes its values strictly between 0 and 1, satisfies
    sigmoid(-x) = 1 - sigmoid(x), and is strictly increasing. *)
Theorem sigmoid_range_symmetry_monotone (x y : R) :
  0 < sigmoid x < 1
  /\ sigmoid (- x) = 1 - sigmoid x
  /\ (sigmoid x < sigmoid y <-> x < y).
Proof.
  split; [split; [apply sigmoid_pos | apply sigmoid_lt_1]|].
  assert (Hinc : forall a b, a < b -> sigmoid a < sigmoid b).
  { intros a b Hab. unfold sigmoid.
    pose proof (exp_pos (- a)). pose proof (exp_pos (- b)).
    assert (exp (- b) < exp (- a)) by (apply exp_increasing; lra).
    unfold Rdiv. rewrite !Rmult_1_l.
    apply Rinv_lt_contravar; [apply Rmult_lt_0_compat; lra | lra]. }
  split.
  - unfold sigmoid. rewrite Ropp_involutive, exp_Ropp.
    pose proof (exp_pos x). field. split; lra.
  - split; [|apply Hinc].
    intros Hlt. destruct (Rlt_le_dec x y) as [|Hle]; [assumption|].
    exfalso. destruct Hle as [Hgt|Heq].
    + apply Hinc in Hgt. lra.
    + subst. lra.
Qed.

Lemma sum_R_map_scale (c : R) (l : list R) :
  sum_R (map (fun v => v * c) l) = sum_R l * c.
Proof. induction l as [|x l IH]; simpl; [ring | rewrite IH; ring]. Qed.

Lemma sum_exp_pos (x : list R) : x <> [] -> 0 < sum_R (map exp x).
Proof.
  destruct x as [|v x]; [congruence|]. intros _. simpl.
  pose proof (exp_pos v).
  assert (0 <= sum_R (map exp x)).
  { induction x as [|w x IH]; simpl; [lra|]. pose proof (exp_pos w). lra. }
  lra.
Qed.

(** X2. On a non-empty vector [softmax] returns a probability vector of the
    same length: every entry lies in (0, 1] and the entries sum to 1. *)
Theorem softmax_is_distribution (x : list R) :
  x <> [] ->
  length (softmax x) = length x
  /\ Forall (fun p => 0 < p <= 1) (softmax x)
  /\ sum_R (softmax x) = 1.
Proof.
  intros Hx. pose proof (sum_exp_pos x Hx) as HS.
  split; [apply length_map | split].
  - apply Forall_forall. intros p Hp.
    split; [|apply (softmax_bounds x p Hp)].
    unfold softmax in Hp. apply in_map_iff in Hp as (v & <- & _).
    apply Rdiv_lt_0_compat; [apply exp_pos | assumption].
  - unfold softmax.
    replace (map (fun v => exp v / sum_R (map exp x)) x)
      with (map (fun v => v * / sum_R (map exp x)) (map exp x))
      by (rewrite map_map; reflexivity).
    rewrite sum_R_map_scale. apply Rinv_r. lra.
Qed.

Lemma softmax_is_distribution_witness :
  length (softmax [2; 1; 0.1]) = length [2; 1; 0.1]
  /\ Forall (fun p => 0 < p <= 1) (softmax [2; 1; 0.1])
  /\ sum_R (softmax [2; 1; 0.1]) = 1.
Proof. apply (softmax_is_distribution [2; 1; 0.1]). discriminate. Defined.


Lemma argmax_from_monotone (f : R -> R) :
  (forall a b, f a < f b <-> a < b) ->
  forall v best bv i,
    argmax_from best (f bv) i (map f v) = argmax_from best bv i v.
Proof.
  intros Hf. induction v as [|x v IH]; intros best bv i; simpl;
    [reflexivity|].
  assert (E : Rgtb (f x) (f bv) = Rgtb x bv).
  { destruct (Rgtb x bv) eqn:Ex.
    - apply Rgtb_true. apply (proj2 (Hf bv x)). now apply Rgtb_true.
    - apply Rgtb_false. apply Rgtb_false in Ex.
      destruct (Rle_lt_dec (f x) (f bv)) as [|Hlt]; [assumption|].
      apply (proj1 (Hf bv x)) in Hlt. lra. }
  rewrite E. destruct (Rgtb x bv); apply IH.
Qed.

Lemma K_argmax_monotone (f : R -> R) (v : list R) :
  (forall a b, f a < f b <-> a < b) ->
  K_argmax (map f v) = K_argmax v.
Proof.
  intros Hf. destruct v as [|x v]; [reflexivity|]. simpl.
  now apply argmax_from_monotone.
Qed.

Lemma K_argmax_softmax (x : list R) : K_argmax (softmax x) = K_argmax x.
Proof.
  destruct x as [|v0 x0] eqn:Ex; [reflexivity|]. rewrite <- Ex.
  assert (Hne : x <> []) by (subst; discriminate).
  pose proof (sum_exp_pos x Hne) as HS.
  unfold softmax. apply K_argmax_monotone. intros a b.
  assert (Hinv : 0 < / sum_R (map exp x)) by now apply Rinv_0_lt_compat.
  unfold Rdiv. split.
  - intros H. apply Rmult_lt_reg_r in H; [|assumption].
    destruct (Rlt_le_dec a b) as [|Hle]; [assumption|]. exfalso.
    destruct Hle as [Hgt|Heq]; [apply exp_increasing in Hgt; lra | subst; lra].
  - intros H. apply Rmult_lt_compat_r; [assumption|].
    now apply exp_increasing.
Qed.

(** ** [space_to_depth_x2_output_shape] *)

(** X4. For a known non-zero height, a known width and known channels the
    output shape halves height and width (rounding down) and multiplies the
    channels by 4; a sample of the output never has more entries than a
    sample of the input, and has as many when height and width are even. *)
Theorem space_to_depth_shape_known (b : Shapes.dim) (h w c : nat) :
  (0 < h)%nat ->
  Shapes.space_to_depth_x2_output_shape (b, Some h, Some w, Some c)
  = Some (b, Some (h / 2)%nat, Some (w / 2)%nat, Some (4 * c)%nat)
  /\ ((h / 2) * (w / 2) * (4 * c) <= h * w * c)%nat
  /\ (Nat.even h = true -> Nat.even w = true ->
      Shapes.sample_size (b, Some (h / 2)%nat, Some (w / 2)%nat, Some (4 * c)%nat)
      = Shapes.sample_size (b, Some h, Some w, Some c)).
Proof.
  intros Hh. split; [|split].
  - destruct h; [lia|]. reflexivity.
  - replace ((h / 2) * (w / 2) * (4 * c))%nat
      with ((2 * (h / 2)) * (2 * (w / 2)) * c)%nat by ring.
    apply Nat.mul_le_mono_r.
    apply Nat.mul_le_mono; apply Nat.Div0.mul_div_le.
  - intros Eh Ew. apply Nat.even_spec in Eh as [h' ->], Ew as [w' ->].
    cbn [Shapes.sample_size]. f_equal.
    rewrite !(Nat.mul_comm 2), !Nat.div_mul by lia. lia.
Qed.

Lemma space_to_depth_shape_known_witness :
  Shapes.space_to_depth_x2_output_shape (None, Some 26, Some 26, Some 64)%nat
  = Some (None, Some (26 / 2), Some (26 / 2), Some (4 * 64))%nat
  /\ ((26 / 2) * (26 / 2) * (4 * 64) <= 26 * 26 * 64)%nat
  /\ (Nat.even 26 = true -> Nat.even 26 = true ->
      Shapes.sample_size (None, Some (26 / 2), Some (26 / 2), Some (4 * 64))%nat
      = Shapes.sample_size (None, Some 26, Some 26, Some 64)%nat).
Proof. apply (space_to_depth_shape_known None 26 26 64). lia. Defined.

(** When the height is [None] or 0 the output shape leaves height and
    width unknown, whatever the width was, and still multiplies the
    channels by 4; with a known non-zero height an unknown width or an
    unknown channel count makes the call fail. *)
Theorem space_to_depth_shape_unknown (b s1 s2 : Shapes.dim) (c : nat) :
  (s1 = None \/ s1 = Some 0%nat ->
   Shapes.space_to_depth_x2_output_shape (b, s1, s2, Some c)
   = Some (b, None, None, Some (4 * c)%nat))
  /\ (forall h, s1 = Some (S h) ->
        Shapes.space_to_depth_x2_output_shape (b, s1, None, Some c) = None
        /\ Shapes.space_to_depth_x2_output_shape (b, s1, s2, None) = None).
Proof.
  split.
  - intros [-> | ->]; reflexivity.
  - intros h ->. split; [reflexivity|]. destruct s2; reflexivity.
Qed.

Lemma space_to_depth_shape_unknown_witness :
  Shapes.space_to_depth_x2_output_shape (None, Some 0%nat, Some 26%nat, Some 64%nat)
  = Some (None, None, None, Some (4 * 64)%nat).
Proof.
  apply (proj1 (space_to_depth_shape_unknown None (Some 0%nat) (Some 26%nat) 64)).
  right. reflexivity.
Defined.

(** ** [YOLOv2.predict]: geometry *)



(** ** [YOLOv2.predict]: modes and scores *)

Lemma cells_head (N_ANCHORS : nat) (p : Prediction) :
  (0 < GRID_H p)%nat -> (0 < GRID_W p)%nat -> (0 < N_ANCHORS)%nat ->
  exists rest, cells N_ANCHORS p = (0, 0, 0)%nat :: rest.
Proof.
  unfold cells. intros Hh Hw Ha.
  destruct (GRID_H p) as [|h]; [lia|].
  destruct (GRID_W p) as [|w]; [lia|].
  destruct N_ANCHORS as [|a]; [lia|].
  cbn [seq flat_map map app]. eauto.
Qed.

Lemma mapM_length {A B : Type} (f : A -> result B) (l : list A) (rs : list B) :
  mapM f l = Ok rs -> length rs = length l.
Proof.
  revert rs; induction l as [|a l IH]; intros rs; simpl.
  - intros E; inversion E; reflexivity.
  - destruct (f a); simpl; [|discriminate].
    destruct (mapM f l) eqn:E; simpl; [|discriminate].
    intros E'; inversion E'; subst. simpl. f_equal. now apply IH.
Qed.

Lemma boolean_mask_length_eq {A B : Type} (t : list A) (t' : list B)
    (mask : list bool) :
  length t = length t' ->
  length (boolean_mask t mask) = length (boolean_mask t' mask).
Proof.
  revert t' mask; induction t as [|x t IH]; intros [|y t'] mask Hl;
    simpl in *; try lia.
  destruct mask as [|b mask]; [reflexivity|].
  destruct b; simpl; [f_equal|]; apply IH; lia.
Qed.

Section PredictFacts.

Variables N_ANCHORS N_CLASSES : nat.
Variable ANCHORS : list (R * R).
Variable HIER_TREE : Node.
Variable preprocess_img : Image -> Image.
Variable model_predict : Image -> NetOut.

Let nms_input' := nms_input N_ANCHORS N_CLASSES ANCHORS HIER_TREE
                    preprocess_img model_predict.
Let predict' := predict N_ANCHORS N_CLASSES ANCHORS HIER_TREE
                  preprocess_img model_predict.

Lemma nms_input_raises (img : Image) (tau : R) (mode : Z) (e : exception) :
  (0 < out_h (model_predict (preprocess_img img)))%nat ->
  (0 < out_w (model_predict (preprocess_img img)))%nat ->
  (0 < N_ANCHORS)%nat ->
  length ANCHORS = N_ANCHORS ->
  (forall p, box_scores N_CLASSES HIER_TREE p 0 0 0 mode = Raise e) ->
  nms_input' img tau mode = Raise e.
Proof.
  intros Hh Hw Ha Hlen Hraise. unfold nms_input', nms_input.
  destruct (reshape_prediction_nonempty N_ANCHORS N_CLASSES _ Hh Hw Ha)
    as [p Hp].
  rewrite Hp. unfold anchors_tensor. rewrite (proj2 (Nat.eqb_eq _ _) Hlen).
  cbn [bind]. unfold resolve_scores.
  apply reshape_prediction_Ok in Hp as (Eh & Ew & _).
  destruct (cells_head N_ANCHORS p) as [rest ->]; [lia | lia | lia |].
  cbn [mapM]. unfold box_class_and_score. rewrite Hraise. reflexivity.
Qed.

(** X6. [predict] serves the modes 0, 1 and 2 only: with a non-empty grid
    and as many anchors as [N_ANCHORS], any other mode raises
    UnboundLocalError ([box_scores] is never assigned), so a call that
    returns was made with mode 0, 1 or 2. *)
Theorem predict_unknown_mode_raises (img : Image) (theta tau : R) (mode : Z) :
  (0 < out_h (model_predict (preprocess_img img)))%nat ->
  (0 < out_w (model_predict (preprocess_img img)))%nat ->
  (0 < N_ANCHORS)%nat ->
  length ANCHORS = N_ANCHORS ->
  (mode <> 0%Z -> mode <> 1%Z -> mode <> 2%Z ->
   predict' img theta tau mode = Raise UnboundLocalError)
  /\ (forall out, predict' img theta tau mode = Ok out ->
                  mode = 0%Z \/ mode = 1%Z \/ mode = 2%Z).
Proof.
  intros Hh Hw Ha Hlen.
  assert (Hraise : mode <> 0%Z -> mode <> 1%Z -> mode <> 2%Z ->
                   predict' img theta tau mode = Raise UnboundLocalError).
  { intros H0 H1 H2.
    assert (Hr : nms_input' img tau mode = Raise UnboundLocalError).
    { apply nms_input_raises; try assumption.
      intros p. unfold box_scores.
      rewrite (proj2 (Z.eqb_neq _ _) H0), (proj2 (Z.eqb_neq _ _) H1),
        (proj2 (Z.eqb_neq _ _) H2). reflexivity. }
    unfold predict', predict. unfold nms_input' in Hr. rewrite Hr.
    reflexivity. }
  split; [exact Hraise|].
  intros out Hout.
  destruct (Z.eq_dec mode 0); [auto|].
  destruct (Z.eq_dec mode 1); [auto|].
  destruct (Z.eq_dec mode 2); [auto|].
  rewrite Hraise in Hout by assumption. discriminate.
Qed.

(** X7. In the modes 1 and 2 a hierarchy whose root has no children makes
    [predict] raise IndexError (from [children[0]]), on a non-empty grid
    with as many anchors as [N_ANCHORS]. *)
Theorem predict_childless_root_raises (img : Image) (theta tau : R) (mode : Z) :
  (0 < out_h (model_predict (preprocess_img img)))%nat ->
  (0 < out_w (model_predict (preprocess_img img)))%nat ->
  (0 < N_ANCHORS)%nat ->
  length ANCHORS = N_ANCHORS ->
  mode = 1%Z \/ mode = 2%Z ->
  node_children HIER_TREE = [] ->
  predict' img theta tau mode = Raise IndexError.
Proof.
  intros Hh Hw Ha Hlen Hmode Hroot.
  assert (Hr : nms_input' img tau mode = Raise IndexError).
  { apply nms_input_raises; try assumption.
    intros p. unfold box_scores. rewrite Hroot.
    destruct Hmode as [-> | ->]; reflexivity. }
  unfold predict', predict. unfold nms_input' in Hr. rewrite Hr.
  reflexivity.
Qed.

Lemma nms_input_candidates (img : Image) (tau : R) (mode : Z)
    (boxes : list Box) (scores : list R) (classes : list nat) :
  nms_input' img tau mode = Ok (boxes, scores, classes) ->
  length scores = length boxes
  /\ length classes = length boxes
  /\ Forall (fun s => tau <= s < 1) scores.
Proof.
  intros H.
  apply nms_input_inv in H
    as (p & anchors & cls & scs & _ & _ & Hres & Heq).
  cbv zeta in Heq. unfold detection_filter in Heq. cbn [fst snd] in Heq.
  inversion Heq; subst boxes scores classes. clear Heq.
  unfold resolve_scores in Hres.
  destruct (mapM _ _) as [rs|e] eqn:Em; [|discriminate].
  cbn [bind] in Hres. inversion Hres; subst cls scs. clear Hres.
  pose proof (mapM_length _ _ _ Em) as Hlen.
  assert (Hd : length (decode_boxes N_ANCHORS p anchors) = length rs).
  { unfold decode_boxes. rewrite length_map. now symmetry. }
  unfold rescale. rewrite length_map.
  split; [|split].
  - apply boolean_mask_length_eq. rewrite length_map. now symmetry.
  - apply boolean_mask_length_eq. rewrite length_map. now symmetry.
  - apply Forall_forall. intros s Hs. split.
    + unfold prediction_mask in Hs.
      pose proof (boolean_mask_self_Forall (fun s => Rgeb s tau) (map snd rs))
        as HF.
      apply Rgeb_true. exact (proj1 (Forall_forall _ _) HF s Hs).
    + apply boolean_mask_In in Hs.
      apply in_map_iff in Hs as ([c s'] & <- & Hin). cbn [snd].
      assert (HF : Forall (fun r => snd r < 1) rs).
      { eapply mapM_Forall; [|exact Em].
        intros [[i j] k] [c0 s0] _ Eb. cbn [snd].
        apply box_class_and_score_bounds in Eb.
        pose proof (sigmoid_lt_1 (pred_at p i j k 4)).
        unfold box_confidence in Eb. lra. }
      exact (proj1 (Forall_forall _ _) HF _ Hin).
Qed.

Lemma suppress_indices (boxes : list Box) (scores : list R)
    (classes : list nat) (theta : R) (out : list Box * list R * list nat) :
  suppress boxes scores classes theta = Ok out ->
  exists idx,
    out = (gather box0 boxes idx, gather 0 scores idx, gather 0%nat classes idx)
    /\ Forall (fun n => (n < length boxes)%nat) idx.
Proof.
  intros H. apply suppress_Ok in H as (_ & idx & Hidx & ->).
  exists idx. split; [reflexivity|].
  apply Forall_forall. intros n Hn. subst idx.
  apply nms_select_incl in Hn. now apply DecreasingArgSort_In in Hn.
Qed.


End PredictFacts.

Lemma predict_unknown_mode_raises_witness :
  Samples.predict1 (Samples.zero_net 1 1) Samples.img_200x100 0.5 0.5 5
  = Raise UnboundLocalError.
Proof.
  apply (proj1 (predict_unknown_mode_raises 1 3 Samples.anchors1
                  Samples.flat_tree Samples.resize416 (Samples.zero_net 1 1)
                  Samples.img_200x100 0.5 0.5 5
                  ltac:(cbn; lia) ltac:(cbn; lia) ltac:(lia) eq_refl));
    discriminate.
Defined.

Lemma predict_childless_root_raises_witness :
  Samples.predict1 (Samples.zero_net 1 1) Samples.img_200x100 0.5 0.5 1
  = Raise IndexError.
Proof.
  apply (predict_childless_root_raises 1 3 Samples.anchors1
           Samples.flat_tree Samples.resize416 (Samples.zero_net 1 1)
           Samples.img_200x100 0.5 0.5 1).
  - cbn. lia.
  - cbn. lia.
  - lia.
  - reflexivity.
  - left. reflexivity.
  - reflexivity.
Defined.


(** ** [YOLOv2.predict]: what the suppression returns *)

Lemma insert_desc_NoDup (scores : list R) (i : nat) (l : list nat) :
  ~ In i l -> NoDup l -> NoDup (insert_desc scores i l).
Proof.
  induction l as [|j l IH]; intros Hi Hl; simpl.
  - constructor; [easy | constructor].
  - destruct (Rgeb _ _).
    + constructor; assumption.
    + inversion Hl; subst. constructor.
      * rewrite insert_desc_In. intros [->|H]; [apply Hi; now left | contradiction].
      * apply IH; [|assumption]. intros H. apply Hi. now right.
Qed.

Lemma DecreasingArgSort_NoDup (scores : list R) (n : nat) :
  NoDup (DecreasingArgSort scores n).
Proof.
  unfold DecreasingArgSort. generalize 0%nat.
  induction n as [|n IH]; intros s; simpl; [constructor|].
  apply insert_desc_NoDup; [|apply IH].
  assert (G : forall m t x, In x (fold_right (insert_desc scores) [] (seq t m))
                            -> (t <= x)%nat).
  { induction m as [|m IHm]; intros t x; simpl; [easy|].
    rewrite insert_desc_In. intros [->|H]; [lia|]. apply IHm in H. lia. }
  intros H. apply G in H. lia.
Qed.

Lemma nms_select_NoDup (boxes : list Box) (theta : R) (room : nat)
    (candidates : list nat) :
  NoDup candidates -> NoDup (nms_select boxes theta room candidates).
Proof.
  revert candidates; induction room as [|room IH]; intros candidates Hnd;
    simpl; [constructor|].
  destruct candidates as [|c rest]; [constructor|].
  inversion Hnd; subst. constructor.
  - intros H. apply nms_select_incl, filter_In in H as [H _]. contradiction.
  - apply IH. now apply NoDup_filter.
Qed.

Lemma ForallOrdPairs_filter {A : Type} (P : A -> A -> Prop) (f : A -> bool)
    (l : list A) :
  ForallOrdPairs P l -> ForallOrdPairs P (filter f l).
Proof.
  induction 1 as [|x l Hx Hl IH]; simpl; [constructor|].
  destruct (f x); [|assumption]. constructor; [|assumption].
  apply Forall_forall. intros y Hy. apply filter_In in Hy as [Hy _].
  exact (proj1 (Forall_forall _ _) Hx y Hy).
Qed.

Lemma nms_select_ordered (P : nat -> nat -> Prop) (boxes : list Box)
    (theta : R) (room : nat) (candidates : list nat) :
  ForallOrdPairs P candidates ->
  ForallOrdPairs P (nms_select boxes theta room candidates).
Proof.
  revert candidates; induction room as [|room IH]; intros candidates Hs;
    simpl; [constructor|].
  destruct candidates as [|c rest]; [constructor|].
  inversion Hs; subst. constructor.
  - apply Forall_forall. intros y Hy.
    apply nms_select_incl, filter_In in Hy as [Hy _].
    match goal with H : Forall _ rest |- _ =>
      exact (proj1 (Forall_forall _ _) H y Hy) end.
  - apply IH. now apply ForallOrdPairs_filter.
Qed.

Lemma insert_desc_ordered (scores : list R) (i : nat) (l : list nat) :
  ForallOrdPairs (fun a b => nth b scores 0 <= nth a scores 0) l ->
  ForallOrdPairs (fun a b => nth b scores 0 <= nth a scores 0)
                 (insert_desc scores i l).
Proof.
  induction 1 as [|j l Hj Hl IH]; simpl.
  - constructor; constructor.
  - destruct (Rgeb _ _) eqn:E.
    + apply Rgeb_true in E. constructor; [|constructor; assumption].
      constructor; [assumption|].
      eapply Forall_impl; [|exact Hj]. cbv beta. intros b Hb. lra.
    + apply Rgeb_false in E. constructor; [|assumption].
      apply Forall_forall. intros b Hb. apply insert_desc_In in Hb as [->|Hb].
      * lra.
      * exact (proj1 (Forall_forall _ _) Hj b Hb).
Qed.

Lemma DecreasingArgSort_ordered (scores : list R) (n : nat) :
  ForallOrdPairs (fun a b => nth b scores 0 <= nth a scores 0)
                 (DecreasingArgSort scores n).
Proof.
  unfold DecreasingArgSort. generalize 0%nat.
  induction n as [|n IH]; intros s; simpl; [constructor|].
  apply insert_desc_ordered, IH.
Qed.

Section SuppressionFacts.

Variables N_ANCHORS N_CLASSES : nat.
Variable ANCHORS : list (R * R).
Variable HIER_TREE : Node.
Variable preprocess_img : Image -> Image.
Variable model_predict : Image -> NetOut.

Let nms_input' := nms_input N_ANCHORS N_CLASSES ANCHORS HIER_TREE
                    preprocess_img model_predict.
Let predict' := predict N_ANCHORS N_CLASSES ANCHORS HIER_TREE
                  preprocess_img model_predict.

(** X9. Every detection that [predict] returns is one of the candidates
    handed to the suppression, with that candidate's own box, score and
    class (the class shifted as the mode requires), and no candidate is
    returned twice. *)
Theorem predict_returns_distinct_candidates (img : Image) (theta tau : R)
    (mode : Z) (bs : list Box) (ss : list R) (cs : list Z) :
  predict' img theta tau mode = Ok (bs, ss, cs) ->
  exists boxes scores classes idx,
    nms_input' img tau mode = Ok (boxes, scores, classes)
    /\ NoDup idx
    /\ Forall (fun n => (n < length boxes)%nat) idx
    /\ bs = map (fun n => nth n boxes box0) idx
    /\ ss = map (fun n => nth n scores 0) idx
    /\ cs = map (fun n => adjust_class HIER_TREE mode (nth n classes 0%nat)) idx.
Proof.
  intros H.
  apply predict_inv in H as (boxes & scores & classes & kc & Hin & Hk & ->).
  apply suppress_Ok in Hk as (_ & idx & Hidx & E).
  inversion E; subst bs ss kc. clear E.
  exists boxes, scores, classes, idx. split; [assumption|].
  split; [subst idx; apply nms_select_NoDup, DecreasingArgSort_NoDup|].
  split.
  - apply Forall_forall. intros n Hn. subst idx.
    apply nms_select_incl in Hn. now apply DecreasingArgSort_In in Hn.
  - unfold gather. rewrite map_map. repeat split; reflexivity.
Qed.

(** X10. [predict] returns its detections by decreasing score: a detection
    never has a higher score than one returned before it. *)
Theorem predict_scores_decreasing (img : Image) (theta tau : R) (mode : Z)
    (bs : list Box) (ss : list R) (cs : list Z) (a b : nat) :
  predict' img theta tau mode = Ok (bs, ss, cs) ->
  (a < b)%nat -> (b < length ss)%nat ->
  nth b ss 0 <= nth a ss 0.
Proof.
  intros H Hab Hb.
  apply predict_inv in H as (boxes & scores & classes & kc & _ & Hk & _).
  apply suppress_Ok in Hk as (_ & idx & Hidx & E).
  inversion E; subst bs ss kc. clear E.
  rewrite gather_length in Hb.
  rewrite !gather_nth by lia.
  assert (HP : ForallOrdPairs (fun i j => nth j scores 0 <= nth i scores 0) idx).
  { subst idx. apply nms_select_ordered, DecreasingArgSort_ordered. }
  exact (ForallOrdPairs_nth _ 0%nat idx HP a b Hab Hb).
Qed.

(** X11. With at least one candidate passing the score threshold,
    [predict] returns at least one detection, and the first detection has
    the highest score among all candidates; without candidates it returns
    nothing. *)
Theorem predict_keeps_best_candidate (img : Image) (theta tau : R) (mode : Z)
    (bs : list Box) (ss : list R) (cs : list Z)
    (boxes : list Box) (scores : list R) (classes : list nat) :
  predict' img theta tau mode = Ok (bs, ss, cs) ->
  nms_input' img tau mode = Ok (boxes, scores, classes) ->
  (bs = [] <-> boxes = [])
  /\ length ss = length bs
  /\ Forall (fun s => s <= hd 0 ss) scores.
Proof.
  intros H Hin.
  apply predict_inv in H as (boxes' & scores' & classes' & kc & Hin' & Hk & _).
  unfold nms_input' in *. rewrite Hin in Hin'. inversion Hin'; subst.
  clear Hin'.
  apply nms_input_candidates in Hin as (Hls & _ & _).
  apply suppress_Ok in Hk as (_ & idx & Hidx & E).
  inversion E; subst bs ss kc. clear E.
  pose proof (DecreasingArgSort_ordered scores' (length boxes')) as Hord.
  pose proof (DecreasingArgSort_length scores' (length boxes')) as Hlen.
  pose proof (fun x => DecreasingArgSort_In scores' (length boxes') x) as Hmem.
  destruct (DecreasingArgSort scores' (length boxes')) as [|i0 sorted].
  - simpl in Hlen. destruct boxes'; [|discriminate].
    destruct scores'; [|discriminate].
    replace idx with (@nil nat)
      by (subst idx; now destruct (Nat.min max_output_size 0)).
    repeat split; auto.
  - destruct boxes' as [|b0 boxes']; [discriminate|].
    assert (Hidx' : exists rest, idx = i0 :: rest).
    { subst idx. unfold max_output_size. cbn [length Nat.min nms_select].
      eauto. }
    destruct Hidx' as [rest ->]. cbn [gather map hd].
    split; [split; discriminate|].
    split; [cbn [length]; now rewrite !length_map|].
    apply Forall_forall. intros s Hs.
    destruct (In_nth _ _ 0 Hs) as (n & Hn & <-).
    assert (Hn' : In n (i0 :: sorted)) by (apply Hmem; lia).
    destruct Hn' as [->|Hn']; [lra|].
    inversion Hord; subst.
    match goal with H : Forall _ sorted |- _ =>
      exact (proj1 (Forall_forall _ _) H n Hn') end.
Qed.

End SuppressionFacts.

Lemma predict_returns_distinct_candidates_witness :
  exists boxes scores classes idx,
    Samples.nms_input1 (Samples.zero_net 1 2) Samples.img_200x100 0.5 0
    = Ok (boxes, scores, classes)
    /\ NoDup idx
    /\ Forall (fun n => (n < length boxes)%nat) idx
    /\ [mkBox 0 0 200 50; mkBox 0 50 200 100]
       = map (fun n => nth n boxes box0) idx
    /\ [1 / 2; 1 / 2] = map (fun n => nth n scores 0) idx
    /\ [(-1)%Z; (-1)%Z]
       = map (fun n => adjust_class Samples.flat_tree 0 (nth n classes 0%nat))
             idx.
Proof.
  apply (predict_returns_distinct_candidates 1 3 Samples.anchors1
           Samples.flat_tree Samples.resize416 (Samples.zero_net 1 2)
           Samples.img_200x100 0.5 0.5 0).
  exact SampleRuns.predict_zero_1x2.
Defined.

Lemma predict_scores_decreasing_witness :
  nth 1 [1 / 2; 1 / 2] 0 <= nth 0 [1 / 2; 1 / 2] 0.
Proof.
  apply (predict_scores_decreasing 1 3 Samples.anchors1 Samples.flat_tree
           Samples.resize416 (Samples.zero_net 1 2) Samples.img_200x100
           0.5 0.5 0 _ _ _ 0 1 SampleRuns.predict_zero_1x2).
  - lia.
  - cbn. lia.
Defined.

Lemma predict_keeps_best_candidate_witness :
  ([mkBox 0 0 200 50; mkBox 0 50 200 100] = []
   <-> [mkBox 0 0 200 50; mkBox 0 50 200 100] = [])
  /\ length [1 / 2; 1 / 2] = length [mkBox 0 0 200 50; mkBox 0 50 200 100]
  /\ Forall (fun s => s <= hd 0 [1 / 2; 1 / 2]) [1 / 2; 1 / 2].
Proof.
  apply (predict_keeps_best_candidate 1 3 Samples.anchors1 Samples.flat_tree
           Samples.resize416 (Samples.zero_net 1 2) Samples.img_200x100
           0.5 0.5 0 _ _ _ _ _ _ SampleRuns.predict_zero_1x2
           SampleRuns.nms_input_zero_1x2).
Defined.

(** ** Detection filter and rescaling *)

Lemma boolean_mask_compose {A B : Type} (f1 f2 : B -> bool) (t : list A)
    (s : list B) :
  (forall y, f2 y = true -> f1 y = true) ->
  boolean_mask (boolean_mask t (map f1 s))
               (map f2 (boolean_mask s (map f1 s)))
  = boolean_mask t (map f2 s).
Proof.
  intros Himp. revert s; induction t as [|x t IH]; intros s.
  - reflexivity.
  - destruct s as [|y s]; [reflexivity|]. simpl.
    destruct (f1 y) eqn:E1; simpl.
    + destruct (f2 y); now rewrite IH.
    + destruct (f2 y) eqn:E2; [|apply IH].
      apply Himp in E2. congruence.
Qed.

(** X12. Filtering at a threshold and then at a higher one gives the same
    boxes, scores and classes as filtering once at the higher threshold. *)
Theorem detection_filter_thresholds_compose (boxes : list Box)
    (scores : list R) (classes : list nat) (tau1 tau2 : R)
    (fb : list Box) (fs : list R) (fc : list nat) :
  tau1 <= tau2 ->
  detection_filter boxes scores classes tau1 = (fb, fs, fc) ->
  detection_filter fb fs fc tau2 = detection_filter boxes scores classes tau2.
Proof.
  intros Hle E. unfold detection_filter in *. inversion E; subst. clear E.
  unfold prediction_mask.
  assert (Himp : forall y, Rgeb y tau2 = true -> Rgeb y tau1 = true).
  { intros y Hy. apply Rgeb_true in Hy. apply Rgeb_true. lra. }
  rewrite !(boolean_mask_compose (fun s => Rgeb s tau1)
              (fun s => Rgeb s tau2) _ scores Himp).
  reflexivity.
Qed.

Lemma detection_filter_sample_low :
  detection_filter [mkBox 0 0 1 1; mkBox 0 0 2 2] [0.9; 0.1] [0%nat; 1%nat] 0.05
  = ([mkBox 0 0 1 1; mkBox 0 0 2 2], [0.9; 0.1], [0%nat; 1%nat]).
Proof.
  unfold detection_filter, prediction_mask. cbn [map].
  rewrite (proj2 (Rgeb_true 0.9 0.05)) by lra.
  rewrite (proj2 (Rgeb_true 0.1 0.05)) by lra.
  reflexivity.
Qed.

Lemma detection_filter_thresholds_compose_witness :
  detection_filter [mkBox 0 0 1 1; mkBox 0 0 2 2] [0.9; 0.1] [0%nat; 1%nat] 0.5
  = detection_filter [mkBox 0 0 1 1; mkBox 0 0 2 2] [0.9; 0.1]
      [0%nat; 1%nat] 0.5.
Proof.
  apply (detection_filter_thresholds_compose
           [mkBox 0 0 1 1; mkBox 0 0 2 2] [0.9; 0.1] [0%nat; 1%nat]
           0.05 0.5 _ _ _ ltac:(lra) detection_filter_sample_low).
Defined.

Lemma Rmin_scale (r p q : R) : 0 < r -> Rmin (p * r) (q * r) = Rmin p q * r.
Proof.
  intros Hr. unfold Rmin.
  destruct (Rle_dec (p * r) (q * r)), (Rle_dec p q); try reflexivity; nra.
Qed.

Lemma Rmax_scale (r p q : R) : 0 < r -> Rmax (p * r) (q * r) = Rmax p q * r.
Proof.
  intros Hr. unfold Rmax.
  destruct (Rle_dec (p * r) (q * r)), (Rle_dec p q); try reflexivity; nra.
Qed.

Lemma Rgeb_0_scale (r a : R) : 0 < r -> Rgeb 0 (a * r) = Rgeb 0 a.
Proof.
  intros Hr. destruct (Rgeb 0 a) eqn:E.
  - apply Rgeb_true in E. apply Rgeb_true. nra.
  - apply Rgeb_false in E. apply Rgeb_false. nra.
Qed.

Lemma IOU_scale (h w : R) (a b : Box) :
  0 < h -> 0 < w ->
  IOU (scale_box (h, w, h, w) a) (scale_box (h, w, h, w) b) = IOU a b.
Proof.
  intros Hh Hw. unfold IOU, scale_box. cbv zeta. cbn [Y1 X1 Y2 X2].
  rewrite !Rmin_scale, !Rmax_scale by assumption.
  set (ya := Rmin (Y1 a) (Y2 a)). set (Ya := Rmax (Y1 a) (Y2 a)).
  set (xa := Rmin (X1 a) (X2 a)). set (Xa := Rmax (X1 a) (X2 a)).
  set (yb := Rmin (Y1 b) (Y2 b)). set (Yb := Rmax (Y1 b) (Y2 b)).
  set (xb := Rmin (X1 b) (X2 b)). set (Xb := Rmax (X1 b) (X2 b)).
  replace ((Ya * h - ya * h) * (Xa * w - xa * w))
    with ((Ya - ya) * (Xa - xa) * (h * w)) by ring.
  replace ((Yb * h - yb * h) * (Xb * w - xb * w))
    with ((Yb - yb) * (Xb - xb) * (h * w)) by ring.
  assert (Hhw : 0 < h * w) by now apply Rmult_lt_0_compat.
  rewrite (Rgeb_0_scale (h * w) ((Ya - ya) * (Xa - xa))) by assumption.
  rewrite (Rgeb_0_scale (h * w) ((Yb - yb) * (Xb - xb))) by assumption.
  destruct (_ || _); [reflexivity|].
  rewrite ?Rmin_scale, ?Rmax_scale by assumption.
  replace (Rmin Ya Yb * h - Rmax ya yb * h)
    with ((Rmin Ya Yb - Rmax ya yb) * h) by ring.
  replace (Rmin Xa Xb * w - Rmax xa xb * w)
    with ((Rmin Xa Xb - Rmax xa xb) * w) by ring.
  set (iy := Rmax (Rmin Ya Yb - Rmax ya yb) 0).
  set (ix := Rmax (Rmin Xa Xb - Rmax xa xb) 0).
  assert (Ey : Rmax ((Rmin Ya Yb - Rmax ya yb) * h) 0 = iy * h).
  { replace 0 with (0 * h) at 1 by ring. now apply Rmax_scale. }
  assert (Ex : Rmax ((Rmin Xa Xb - Rmax xa xb) * w) 0 = ix * w).
  { replace 0 with (0 * w) at 1 by ring. now apply Rmax_scale. }
  rewrite Ey, Ex.
  replace ((Ya - ya) * (Xa - xa) * (h * w) + (Yb - yb) * (Xb - xb) * (h * w)
           - iy * h * (ix * w))
    with (((Ya - ya) * (Xa - xa) + (Yb - yb) * (Xb - xb) - iy * ix) * (h * w))
    by ring.
  unfold Rdiv. rewrite Rinv_mult.
  replace (iy * h * (ix * w) *
           (/ ((Ya - ya) * (Xa - xa) + (Yb - yb) * (Xb - xb) - iy * ix)
            * / (h * w)))
    with (iy * ix
          * / ((Ya - ya) * (Xa - xa) + (Yb - yb) * (Xb - xb) - iy * ix)
          * ((h * w) * / (h * w))) by ring.
  rewrite Rinv_r by lra. ring.
Qed.

Lemma nms_select_map (f : Box -> Box) (boxes : list Box) (theta : R) :
  f box0 = box0 ->
  (forall a b, IOU (f a) (f b) = IOU a b) ->
  forall room candidates,
    nms_select (map f boxes) theta room candidates
    = nms_select boxes theta room candidates.
Proof.
  intros H0 Hf. induction room as [|room IH]; intros candidates;
    [reflexivity|].
  destruct candidates as [|c rest]; [reflexivity|]. cbn [nms_select].
  f_equal. rewrite IH. f_equal. apply filter_ext. intros j.
  rewrite <- H0 at 1 2. rewrite !map_nth, Hf. reflexivity.
Qed.

(** X13. For an image of positive height and width the overlap of two
    boxes is the same before and after rescaling, so suppressing the
    rescaled boxes, as [predict] does, keeps exactly the detections that
    suppressing the normalized boxes and rescaling the survivors would
    keep. *)
Theorem suppress_commutes_with_rescale (img : Image) (boxes : list Box)
    (scores : list R) (classes : list nat) (theta : R) :
  (0 < img_height img)%nat -> (0 < img_width img)%nat ->
  (forall a b, IOU (scale_box (image_dims img) a) (scale_box (image_dims img) b)
               = IOU a b)
  /\ suppress (rescale img boxes) scores classes theta
     = match suppress boxes scores classes theta with
       | Ok (bs, ss, cs) => Ok (rescale img bs, ss, cs)
       | Raise e => Raise e
       end.
Proof.
  intros Hh Hw.
  assert (HIOU : forall a b, IOU (scale_box (image_dims img) a)
                                 (scale_box (image_dims img) b) = IOU a b).
  { intros a b. unfold image_dims. apply IOU_scale; apply lt_0_INR; lia. }
  split; [exact HIOU|].
  assert (H0 : scale_box (image_dims img) box0 = box0).
  { unfold scale_box, image_dims, box0. cbn [Y1 X1 Y2 X2].
    f_equal; ring. }
  unfold suppress, non_max_suppression, rescale.
  destruct (Rgeb theta 0 && Rgeb 1 theta); [|reflexivity].
  cbn [bind]. rewrite length_map.
  rewrite (nms_select_map _ boxes theta H0 HIOU).
  f_equal. f_equal. f_equal. unfold gather. rewrite map_map.
  apply map_ext. intros n. rewrite <- H0 at 1. now rewrite map_nth.
Qed.

Lemma suppress_commutes_with_rescale_witness :
  suppress (rescale Samples.img_200x100 [mkBox 0 0 1 1]) [1 / 2] [0%nat] 0.5
  = match suppress [mkBox 0 0 1 1] [1 / 2] [0%nat] 0.5 with
    | Ok (bs, ss, cs) => Ok (rescale Samples.img_200x100 bs, ss, cs)
    | Raise e => Raise e
    end.
Proof.
  apply (proj2 (suppress_commutes_with_rescale Samples.img_200x100
                  [mkBox 0 0 1 1] [1 / 2] [0%nat] 0.5
                  ltac:(cbn; lia) ltac:(cbn; lia))).
Defined.

(** ** [YOLOv2.predict]: the hierarchical modes *)

Lemma vmax_scale (c d : R) (v : list R) :
  0 <= c -> vmax (c * d) (map (fun q => c * q) v) = c * vmax d v.
Proof.
  intros Hc. revert d; induction v as [|x v IH]; intros d; simpl;
    [reflexivity|].
  rewrite RmaxRmult by assumption. apply IH.
Qed.

Lemma K_max_scale (c : R) (v : list R) :
  0 <= c -> K_max (map (fun q => c * q) v) = c * K_max v.
Proof.
  intros Hc. destruct v as [|x v]; simpl; [ring|]. now apply vmax_scale.
Qed.

Lemma K_argmax_scale (c : R) (v : list R) :
  0 < c -> K_argmax (map (fun q => c * q) v) = K_argmax v.
Proof.
  intros Hc. apply K_argmax_monotone. intros a b. split; intros H; nra.
Qed.

(** X14. In mode 1, with a root that has children, the class scores of a
    cell are its objectness times the softmax of the class logits of the
    root's children; when that slice of logits is not empty the scores sum
    to the objectness, the best score is the objectness times the largest
    softmax entry, and the best class is the position of the largest raw
    logit; when the slice is empty the reduction fails. *)
Theorem mode1_scores_of_cell (N_CLASSES : nat) (HIER_TREE : Node)
    (p : Prediction) (i j k : nat) (c0 : Node) (rest : list Node) :
  node_children HIER_TREE = c0 :: rest ->
  let logits := py_slice (box_class_probs N_CLASSES p i j k) (node_id c0)
                  (node_id c0 + Z.of_nat (length (c0 :: rest))) in
  let scores := map (fun q => box_confidence p i j k * q) (softmax logits) in
  box_scores N_CLASSES HIER_TREE p i j k 1 = Ok scores
  /\ (logits <> [] ->
      sum_R scores = box_confidence p i j k
      /\ box_class_and_score N_CLASSES HIER_TREE p i j k 1
         = Ok (K_argmax logits, box_confidence p i j k * K_max (softmax logits)))
  /\ (logits = [] ->
      box_class_and_score N_CLASSES HIER_TREE p i j k 1
      = Raise InvalidArgumentError).
Proof.
  intros Hroot logits scores.
  assert (Hs : box_scores N_CLASSES HIER_TREE p i j k 1 = Ok scores).
  { unfold box_scores. rewrite Hroot. reflexivity. }
  pose proof (sigmoid_pos (pred_at p i j k 4)) as Hc.
  fold (box_confidence p i j k) in Hc.
  split; [exact Hs | split].
  - intros Hne. split.
    + subst scores.
      replace (map (fun q => box_confidence p i j k * q) (softmax logits))
        with (map (fun q => q * box_confidence p i j k) (softmax logits))
        by (apply map_ext; intros; ring).
      rewrite sum_R_map_scale.
      rewrite (proj2 (proj2 (softmax_is_distribution logits Hne))). ring.
    + unfold box_class_and_score. rewrite Hs. cbn [bind].
      destruct scores as [|s0 scores'] eqn:Es.
      * exfalso. apply Hne. subst scores.
        apply map_eq_nil in Es. unfold softmax in Es.
        now apply map_eq_nil in Es.
      * rewrite <- Es. subst scores.
        rewrite K_argmax_scale, K_argmax_softmax, K_max_scale by lra.
        reflexivity.
  - intros He. unfold box_class_and_score. rewrite Hs. subst scores.
    rewrite He. reflexivity.
Qed.

Lemma mode1_scores_of_cell_witness :
  box_scores 3 (mkNode (-1) [mkNode 0 []; mkNode 1 []; mkNode 2 []])
    (mkPrediction 1 1 (fun _ _ _ _ => 0)) 0 0 0 1
  = Ok (map (fun q => box_confidence (mkPrediction 1 1 (fun _ _ _ _ => 0))
                        0 0 0 * q)
          (softmax (py_slice (box_class_probs 3
                                (mkPrediction 1 1 (fun _ _ _ _ => 0)) 0 0 0)
                      0 (0 + Z.of_nat 3)))).
Proof.
  apply (proj1 (mode1_scores_of_cell 3
                  (mkNode (-1) [mkNode 0 []; mkNode 1 []; mkNode 2 []])
                  (mkPrediction 1 1 (fun _ _ _ _ => 0)) 0 0 0
                  (mkNode 0 []) [mkNode 1 []; mkNode 2 []] eq_refl)).
Defined.

Lemma argmax_from_lt (v : list R) :
  forall best bv i,
    (best < i)%nat -> (argmax_from best bv i v < i + length v)%nat.
Proof.
  induction v as [|x v IH]; intros best bv i Hb; simpl; [lia|].
  destruct (Rgtb x bv).
  - specialize (IH i x (S i)). lia.
  - specialize (IH best bv (S i)). lia.
Qed.

Lemma K_argmax_lt (v : list R) : v <> [] -> (K_argmax v < length v)%nat.
Proof.
  destruct v as [|x v]; [congruence|]. intros _. simpl.
  pose proof (argmax_from_lt v 0 x 1). lia.
Qed.

Lemma py_slice_length {A : Type} (l : list A) (start : Z) (n : nat) :
  (length (py_slice l start (start + Z.of_nat n)) <= n)%nat.
Proof.
  unfold py_slice, slice_bound. rewrite length_firstn.
  destruct (start <? 0)%Z eqn:E1; destruct (start + Z.of_nat n <? 0)%Z eqn:E2;
    try apply Z.ltb_lt in E1; try apply Z.ltb_lt in E2;
    try apply Z.ltb_ge in E1; try apply Z.ltb_ge in E2; lia.
Qed.

Lemma broadcast_mul_length (a b r : list R) (m : nat) :
  (length a <= 1)%nat -> (length b <= m)%nat ->
  broadcast_mul a b = Ok r -> (length r <= m)%nat.
Proof.
  intros Ha Hb. unfold broadcast_mul.
  destruct a as [|x [|x' a]]; simpl in Ha; [| |lia].
  - destruct b as [|y [|y' b]]; simpl.
    + intros E; inversion E; simpl; lia.
    + intros E; inversion E; simpl; lia.
    + discriminate.
  - intros E; inversion E. now rewrite length_map.
Qed.

Section ClassRanges.

Variables N_ANCHORS N_CLASSES : nat.
Variable ANCHORS : list (R * R).
Variable HIER_TREE : Node.
Variable preprocess_img : Image -> Image.
Variable model_predict : Image -> NetOut.

Let predict' := predict N_ANCHORS N_CLASSES ANCHORS HIER_TREE
                  preprocess_img model_predict.

(** The number of entries of the score vector of a cell. *)
Lemma box_scores_length (p : Prediction) (i j k : nat) (mode : Z)
    (v : list R) :
  box_scores N_CLASSES HIER_TREE p i j k mode = Ok v ->
  (mode = 1%Z -> (length v <= length (node_children HIER_TREE))%nat)
  /\ (mode = 2%Z ->
      (length v <= list_sum (map (fun node => length (node_children node))
                               (node_children HIER_TREE)))%nat).
Proof.
  unfold box_scores. intros H. split; intros ->; cbn [Z.eqb] in H.
  - destruct (first_child _) as [c0|e]; [|discriminate]. cbn [bind] in H.
    inversion H. rewrite length_map. unfold softmax. rewrite length_map.
    apply py_slice_length.
  - destruct (first_child _) as [c0|e]; [|discriminate]. cbn [bind] in H.
    destruct (broadcast_mul _ _) as [parent_scores|e]; [|discriminate].
    cbn [bind] in H.
    destruct (mapM _ _) as [pieces|e] eqn:Em; [|discriminate].
    cbn [bind] in H. inversion H; subst v. clear H.
    revert pieces Em. generalize (node_children HIER_TREE).
    induction l as [|node l IH]; intros pieces Em; simpl in Em.
    + inversion Em. simpl. lia.
    + destruct (first_child (node_children node)) as [n0|e]; [|discriminate].
      cbn [bind] in Em.
      destruct (broadcast_mul _ _) as [piece|e] eqn:Eb; [|discriminate].
      cbn [bind] in Em.
      destruct (mapM _ l) as [pieces'|e] eqn:El; [|discriminate].
      cbn [bind] in Em. inversion Em; subst pieces. clear Em.
      cbn [concat map list_sum]. rewrite length_app.
      specialize (IH pieces' eq_refl).
      apply broadcast_mul_length
        with (m := length (node_children node)) in Eb.
      * cbn [list_sum fold_right]. unfold list_sum in IH. lia.
      * pose proof (py_slice_length parent_scores (node_id node) 1) as Hl.
        replace (node_id node + Z.of_nat 1)%Z with (node_id node + 1)%Z in Hl
          by lia.
        exact Hl.
      * unfold softmax. rewrite length_map. apply py_slice_length.
Qed.

(** X15. The class ids that [predict] returns in mode 1 lie between 0 and
    the number of children of the root, and in mode 2 between the number
    of children of the root and that number plus the total number of
    grandchildren. *)
Theorem predict_class_id_range (img : Image) (theta tau : R) (mode : Z)
    (bs : list Box) (ss : list R) (cs : list Z) :
  predict' img theta tau mode = Ok (bs, ss, cs) ->
  let n := Z.of_nat (length (node_children HIER_TREE)) in
  let m := Z.of_nat (list_sum (map (fun node => length (node_children node))
                                 (node_children HIER_TREE))) in
  (mode = 1%Z -> Forall (fun c => (0 <= c < n)%Z) cs)
  /\ (mode = 2%Z -> Forall (fun c => (n <= c < n + m)%Z) cs).
Proof.
  intros H n m.
  apply predict_inv in H as (boxes & scores & classes & kc & Hin & Hk & ->).
  pose proof (nms_input_candidates _ _ _ _ _ _ _ _ _ _ _ _ Hin)
    as (_ & Hlc & _).
  apply suppress_indices in Hk as (idx & E & Hidx). inversion E; subst kc.
  clear E.
  apply nms_input_inv in Hin
    as (p & anchors & cls & scs & _ & _ & Hres & Heq).
  cbv zeta in Heq. unfold detection_filter in Heq. cbn [fst snd] in Heq.
  injection Heq as Hb Hs Hc.
  unfold resolve_scores in Hres.
  destruct (mapM _ _) as [rs|e] eqn:Em; [|discriminate].
  cbn [bind] in Hres. inversion Hres; subst cls scs. clear Hres.
  assert (Hcls : forall bound,
            (forall pp i j k v,
               box_scores N_CLASSES HIER_TREE pp i j k mode = Ok v ->
               (length v <= bound)%nat) ->
            Forall (fun c => (c < bound)%nat) classes).
  { intros bound Hbound. apply Forall_forall. intros c Hcin.
    rewrite Hc in Hcin. apply boolean_mask_In in Hcin.
    apply in_map_iff in Hcin as ([c' s'] & <- & Hin'). cbn [fst].
    assert (HF : Forall (fun r => (fst r < bound)%nat) rs).
    { eapply mapM_Forall; [|exact Em].
      intros [[i j] k] [c0 s0] _ Eb. cbn [fst].
      unfold box_class_and_score in Eb.
      destruct (box_scores _ _ _ _ _ _ _) as [v|e] eqn:Ev; [|discriminate].
      cbn [bind] in Eb. destruct v as [|x v]; [discriminate|].
      inversion Eb; subst.
      pose proof (K_argmax_lt (x :: v) ltac:(discriminate)).
      specialize (Hbound _ _ _ _ _ Ev). unfold K_argmax in *. lia. }
    exact (proj1 (Forall_forall _ _) HF _ Hin'). }
  assert (Hkept : forall bound,
            Forall (fun c => (c < bound)%nat) classes ->
            Forall (fun c => (c < bound)%nat) (gather 0%nat classes idx)).
  { intros bound Hall. apply Forall_forall. intros c Hcin.
    unfold gather in Hcin. apply in_map_iff in Hcin as (q & <- & Hq).
    pose proof (proj1 (Forall_forall _ _) Hidx q Hq) as Hlt. cbv beta in Hlt.
    apply (proj1 (Forall_forall _ _) Hall). apply nth_In. lia. }
  split; intros Hmode.
  - apply Forall_forall. intros c Hcin.
    apply in_map_iff in Hcin as (c' & <- & Hc').
    assert (Hlt : (c' < length (node_children HIER_TREE))%nat).
    { refine (proj1 (Forall_forall _ _) (Hkept _ (Hcls _ _)) c' Hc').
      intros pp i j k v Ev.
      exact (proj1 (box_scores_length pp i j k mode v Ev) Hmode). }
    subst mode n. cbv [adjust_class Z.eqb Pos.eqb]. lia.
  - apply Forall_forall. intros c Hcin.
    apply in_map_iff in Hcin as (c' & <- & Hc').
    assert (Hlt : (c' < list_sum (map (fun node => length (node_children node))
                                    (node_children HIER_TREE)))%nat).
    { refine (proj1 (Forall_forall _ _) (Hkept _ (Hcls _ _)) c' Hc').
      intros pp i j k v Ev.
      exact (proj2 (box_scores_length pp i j k mode v Ev) Hmode). }
    subst mode n m. cbv [adjust_class Z.eqb Pos.eqb]. lia.
Qed.

End ClassRanges.

Lemma predict_single_child_mode1 :
  predict 1 3 Samples.anchors1 (mkNode (-1) [mkNode 0 []]) Samples.resize416
    (Samples.zero_net 1 1) Samples.img_200x100 0.5 0.5 1
  = Ok ([mkBox 0 0 200 100], [1 / 2], [0%Z]).
Proof.
  unfold predict, nms_input.
  cbv [reshape_prediction Samples.zero_net out_h out_w out_at Nat.eqb orb
       bind anchors_tensor Samples.anchors1 length resolve_scores cells
       GRID_H GRID_W seq flat_map map app mapM box_class_and_score box_scores
       Z.eqb Pos.eqb first_child node_children node_id broadcast_mul
       box_class_probs box_confidence pred_at py_slice slice_bound Z.ltb
       Z.compare Z.of_nat Pos.of_succ_nat Pos.succ Z.add Z.min Z.max
       Pos.compare Pos.compare_cont Z.sub Z.opp Z.pos_sub Z.to_nat
       Pos.to_nat Pos.iter_op Nat.add firstn skipn softmax sum_R fold_right
       K_argmax K_max argmax_from vmax fst snd Nat.mul].
  rewrite !sigmoid_0, !exp_0.
  replace (1 / 2 * (1 / (1 + 0))) with (1 / 2) by lra.
  SampleRuns.run_stage. rewrite !sigmoid_0, !exp_0.
  rewrite (proj2 (Rgeb_true (1 / 2) 0.5)) by lra.
  SampleRuns.threshold_in_range.
  rewrite !INR_IZR_INZ. SampleRuns.run_stage.
  repeat f_equal; lra.
Qed.

Lemma predict_class_id_range_witness :
  Forall (fun c => (0 <= c < Z.of_nat (length [mkNode 0 []]))%Z) [0%Z].
Proof.
  apply (proj1 (predict_class_id_range 1 3 Samples.anchors1
                  (mkNode (-1) [mkNode 0 []]) Samples.resize416
                  (Samples.zero_net 1 1) Samples.img_200x100 0.5 0.5 1
                  _ _ _ predict_single_child_mode1)).
  reflexivity.
Defined.

(** ** [load_lisa_data]: reading the CSV files *)

Section LoadRuns.

Variables DataFrame Series : Type.
Variable isdir : string -> bool.
Variable glob : string -> list string.
Variable read_csv : string -> result DataFrame.
Variable get_column : DataFrame -> string -> result Series.
Variable prepend : string -> Series -> Series.
Variable loc_columns : DataFrame -> string -> string -> result DataFrame.
Variable concat_series : list Series -> result Series.
Variable concat_frames : list DataFrame -> result DataFrame.
Variable select_columns : DataFrame -> list string -> result DataFrame.

Let load := Lisa.load_lisa_data DataFrame Series isdir glob read_csv
              get_column prepend loc_columns concat_series concat_frames
              select_columns.
Let read_all := Lisa.read_all DataFrame Series read_csv get_column prepend
                  loc_columns.

Let readable := csv_readable read_csv get_column loc_columns.

Lemma read_all_readable (names : string -> Series)
    (labels : string -> DataFrame) (path : string) (files : list string) :
  Forall (readable names labels) files ->
  forall X Y,
    read_all path files X Y
    = (map Lisa.ReadCsv files,
       Ok (X ++ map (fun fl => prepend path (names fl)) files,
           Y ++ map labels files)).
Proof.
  induction 1 as [|fl files (df & Hr & Hn & Hl) Hfiles IH]; intros X Y.
  - cbn. now rewrite !app_nil_r.
  - unfold read_all in *. cbn [Lisa.read_all]. rewrite Hr, Hn, Hl, IH.
    cbn [map]. now rewrite <- !app_assoc.
Qed.

Lemma read_all_stops (names : string -> Series)
    (labels : string -> DataFrame) (path : string)
    (before after : list string) (fl : string) (e : exception) :
  Forall (readable names labels) before ->
  (read_csv fl = Raise e
   \/ (exists df, read_csv fl = Ok df
                  /\ (get_column df "Filename" = Raise e
                      \/ (exists s, get_column df "Filename" = Ok s)
                         /\ loc_columns df "Annotation tag"
                              "Lower right corner Y" = Raise e))) ->
  forall X Y,
    read_all path (before ++ fl :: after) X Y
    = (map Lisa.ReadCsv (before ++ [fl]), Raise e).
Proof.
  intros Hb Hfl.
  induction Hb as [|f0 before (df & Hr & Hn & Hl) Hbefore IH]; intros X Y.
  - unfold read_all. cbn [app Lisa.read_all map].
    destruct Hfl as [-> | (df & -> & [-> | [(s & ->) ->]])]; reflexivity.
  - unfold read_all in *. cbn [app Lisa.read_all]. rewrite Hr, Hn, Hl, IH.
    reflexivity.
Qed.

(** X16. For an existing directory whose matched CSV files can all be read
    and hold the columns asked for, [load_lisa_data] reads each matched
    file exactly once, in the order of the glob, prefixes every column of
    file names with the path, and hands the columns to [pd.concat] in that
    same order; the result is what the two concatenations and the final
    column selection give. *)
Theorem load_lisa_data_reads_all (names : string -> Series)
    (labels : string -> DataFrame) (path : string) :
  isdir path = true ->
  Forall (readable names labels) (glob (path ++ "*.csv")%string) ->
  let files := glob (path ++ "*.csv")%string in
  load (Some path)
  = (Lisa.IsDir path :: Lisa.Glob (path ++ "*.csv")%string
       :: map Lisa.ReadCsv files,
     do X <- concat_series (map (fun fl => prepend path (names fl)) files);
     do Y <- concat_frames (map labels files);
     do Y' <- select_columns Y
                ["Upper left corner X"%string; "Upper left corner Y"%string;
                 "Lower right corner X"%string; "Lower right corner Y"%string;
                 "Annotation tag"%string];
     Ok (X, Y')).
Proof.
  intros Hdir Hfiles files. unfold load, Lisa.load_lisa_data.
  rewrite Hdir. cbn [negb].
  pose proof (read_all_readable names labels path _ Hfiles [] []) as Hr.
  unfold read_all in Hr. fold files in Hr |- *. rewrite Hr.
  reflexivity.
Qed.

(** X17. When one of the matched files cannot be read, or lacks the
    [Filename] column or the label columns, [load_lisa_data] raises that
    exception at once: the files matched after it are never read and
    nothing is concatenated. *)
Theorem load_lisa_data_stops_at_first_failure (names : string -> Series)
    (labels : string -> DataFrame) (path : string)
    (before after : list string) (fl : string) (e : exception) :
  isdir path = true ->
  glob (path ++ "*.csv")%string = before ++ fl :: after ->
  Forall (readable names labels) before ->
  (read_csv fl = Raise e
   \/ (exists df, read_csv fl = Ok df
                  /\ (get_column df "Filename" = Raise e
                      \/ (exists s, get_column df "Filename" = Ok s)
                         /\ loc_columns df "Annotation tag"
                              "Lower right corner Y" = Raise e))) ->
  load (Some path)
  = (Lisa.IsDir path :: Lisa.Glob (path ++ "*.csv")%string
       :: map Lisa.ReadCsv (before ++ [fl]),
     Raise e).
Proof.
  intros Hdir Hglob Hb Hfl. unfold load, Lisa.load_lisa_data.
  rewrite Hdir, Hglob. cbn [negb].
  pose proof (read_all_stops names labels path before after fl e Hb Hfl [] [])
    as Hr.
  unfold read_all in Hr. rewrite Hr. reflexivity.
Qed.

(** X18. For an existing directory in which the glob matches no file,
    [load_lisa_data] reads nothing and returns what [pd.concat] gives on an
    empty list; when that raises, as pandas does, the exception is the
    result. *)
Theorem load_lisa_data_no_csv (path : string) (e : exception) :
  isdir path = true ->
  glob (path ++ "*.csv")%string = [] ->
  concat_series [] = Raise e ->
  load (Some path)
  = ([Lisa.IsDir path; Lisa.Glob (path ++ "*.csv")%string], Raise e).
Proof.
  intros Hdir Hglob Hc. unfold load, Lisa.load_lisa_data.
  rewrite Hdir, Hglob. cbn. rewrite Hc. reflexivity.
Qed.

End LoadRuns.

Lemma load_lisa_data_reads_all_witness :
  Lisa.load_lisa_data unit unit (fun _ => true)
    (fun _ => ["data/a.csv"%string; "data/b.csv"%string])
    (fun _ => Ok tt) (fun _ _ => Ok tt) (fun _ s => s) (fun _ _ _ => Ok tt)
    (fun _ => Ok tt) (fun _ => Ok tt) (fun _ _ => Ok tt) (Some "data/"%string)
  = ([Lisa.IsDir "data/"%string; Lisa.Glob "data/*.csv"%string;
      Lisa.ReadCsv "data/a.csv"%string; Lisa.ReadCsv "data/b.csv"%string],
     Ok (tt, tt)).
Proof.
  apply (load_lisa_data_reads_all unit unit (fun _ => true)
           (fun _ => ["data/a.csv"%string; "data/b.csv"%string])
           (fun _ => Ok tt) (fun _ _ => Ok tt) (fun _ s => s)
           (fun _ _ _ => Ok tt) (fun _ => Ok tt) (fun _ => Ok tt)
           (fun _ _ => Ok tt) (fun _ => tt) (fun _ => tt) "data/"%string).
  - reflexivity.
  - repeat constructor; exists tt; repeat split.
Defined.

Lemma load_lisa_data_stops_at_first_failure_witness :
  Lisa.load_lisa_data unit unit (fun _ => true)
    (fun _ => ["data/a.csv"%string; "data/b.csv"%string])
    (fun _ => Raise (LibraryError "parse")) (fun _ _ => Ok tt) (fun _ s => s)
    (fun _ _ _ => Ok tt) (fun _ => Ok tt) (fun _ => Ok tt) (fun _ _ => Ok tt)
    (Some "data/"%string)
  = ([Lisa.IsDir "data/"%string; Lisa.Glob "data/*.csv"%string;
      Lisa.ReadCsv "data/a.csv"%string],
     Raise (LibraryError "parse")).
Proof.
  apply (load_lisa_data_stops_at_first_failure unit unit (fun _ => true)
           (fun _ => ["data/a.csv"%string; "data/b.csv"%string])
           (fun _ => Raise (LibraryError "parse")) (fun _ _ => Ok tt)
           (fun _ s => s) (fun _ _ _ => Ok tt) (fun _ => Ok tt)
           (fun _ => Ok tt) (fun _ _ => Ok tt) (fun _ => tt) (fun _ => tt)
           "data/"%string [] ["data/b.csv"%string] "data/a.csv"%string).
  - reflexivity.
  - reflexivity.
  - constructor.
  - left. reflexivity.
Defined.

Lemma load_lisa_data_no_csv_witness :
  Lisa.load_lisa_data unit unit (fun _ => true) (fun _ => [])
    (fun _ => Ok tt) (fun _ _ => Ok tt) (fun _ s => s) (fun _ _ _ => Ok tt)
    (fun _ => Raise (ValueError "No objects to concatenate"))
    (fun _ => Ok tt) (fun _ _ => Ok tt) (Some "data/"%string)
  = ([Lisa.IsDir "data/"%string; Lisa.Glob "data/*.csv"%string],
     Raise (ValueError "No objects to concatenate")).
Proof.
  apply (load_lisa_data_no_csv unit unit (fun _ => true) (fun _ => [])
           (fun _ => Ok tt) (fun _ _ => Ok tt) (fun _ s => s)
           (fun _ _ _ => Ok tt)
           (fun _ => Raise (ValueError "No objects to concatenate"))
           (fun _ => Ok tt) (fun _ _ => Ok tt) "data/"%string);
    reflexivity.
Defined.

(** ** [save_lisa_to_txt] *)

Section SaveRuns.

Variables DataFrame Series : Type.
Variable isdir : string -> bool.
Variable glob : string -> list string.
Variable read_csv : string -> result DataFrame.
Variable get_column : DataFrame -> string -> result Series.
Variable prepend : string -> Series -> Series.
Variable loc_columns : DataFrame -> string -> string -> result DataFrame.
Variable concat_series : list Series -> result Series.
Variable concat_frames : list DataFrame -> result DataFrame.
Variable select_columns : DataFrame -> list string -> result DataFrame.
Variable concat_columns : Series -> DataFrame -> result DataFrame.
Variable savetxt : string -> DataFrame -> result unit.

Let load := Lisa.load_lisa_data DataFrame Series isdir glob read_csv
              get_column prepend loc_columns concat_series concat_frames
              select_columns.
Let save := SaveLisa.save_lisa_to_txt DataFrame Series isdir glob read_csv
              get_column prepend loc_columns concat_series concat_frames
              select_columns concat_columns savetxt.

(** X19. [save_lisa_to_txt] first does everything [load_lisa_data] does;
    when the load raises, the same exception is raised and nothing is
    written; a write happens at most once, after the whole load, and always
    to "training.txt", so the [save_file] argument has no effect; and a
    call that returns gives back what the load returned. *)
Theorem save_lisa_to_txt_behaviour (csv_path : option string)
    (save_file save_file' : string) :
  save csv_path save_file = save csv_path save_file'
  /\ (forall e, snd (load csv_path) = Raise e ->
        save csv_path save_file = (map SaveLisa.Load (fst (load csv_path)),
                                   Raise e))
  /\ (fst (save csv_path save_file) = map SaveLisa.Load (fst (load csv_path))
      \/ fst (save csv_path save_file)
         = map SaveLisa.Load (fst (load csv_path))
           ++ [SaveLisa.SaveTxt "training.txt"]
         /\ exists out, snd (load csv_path) = Ok out)
  /\ (forall out, snd (save csv_path save_file) = Ok out ->
        snd (load csv_path) = Ok out
        /\ In (SaveLisa.SaveTxt "training.txt") (fst (save csv_path save_file))).
Proof.
  unfold save, SaveLisa.save_lisa_to_txt. fold load.
  destruct (load csv_path) as [tr [[X Y]|e]]; cbn [fst snd].
  - destruct (concat_columns X Y) as [df|e]; cbn [fst snd].
    + repeat split.
      * discriminate.
      * right. split; [reflexivity | eauto].
      * destruct (savetxt _ df); cbn [bind] in H; congruence.
      * apply in_or_app. right. now left.
    + repeat split; try discriminate. now left.
  - repeat split; try discriminate.
    + intros e' E. now inversion E.
    + now left.
Qed.

End SaveRuns.

Lemma save_lisa_to_txt_behaviour_witness :
  SaveLisa.save_lisa_to_txt unit unit (fun _ => false) (fun _ => [])
    (fun _ => Ok tt) (fun _ _ => Ok tt) (fun _ s => s) (fun _ _ _ => Ok tt)
    (fun _ => Ok tt) (fun _ => Ok tt) (fun _ _ => Ok tt) (fun _ _ => Ok tt)
    (fun _ _ => Ok tt) (Some "data/"%string) "out.txt"%string
  = (map SaveLisa.Load [Lisa.IsDir "data/"%string],
     Raise (IOError "Path does not exist")).
Proof.
  apply (proj1 (proj2 (save_lisa_to_txt_behaviour unit unit (fun _ => false)
                         (fun _ => []) (fun _ => Ok tt) (fun _ _ => Ok tt)
                         (fun _ s => s) (fun _ _ _ => Ok tt) (fun _ => Ok tt)
                         (fun _ => Ok tt) (fun _ _ => Ok tt)
                         (fun _ _ => Ok tt) (fun _ _ => Ok tt)
                         (Some "data/"%string) "out.txt"%string
                         "out.txt"%string))).
  reflexivity.
Defined.

(** ** [evaluate._main_] *)

Lemma basename_from_no_slash (s acc : string) (n : nat) :
  (forall m, String.get m acc <> Some "/"%char) ->
  String.get n (Evaluate.basename_from acc s) <> Some "/"%char.
Proof.
  revert acc n; induction s as [|c s IH]; intros acc n Hacc; simpl.
  - apply Hacc.
  - destruct (Ascii.eqb_spec c "/"%char) as [->|Hc].
    + apply IH. intros m. now destruct m.
    + apply IH. clear - Hacc Hc.
      induction acc as [|a acc IHa]; intros m; simpl.
      * destruct m as [|m]; simpl; [congruence | now destruct m].
      * destruct m as [|m]; simpl.
        -- apply (Hacc 0%nat).
        -- apply IHa. intros q. apply (Hacc (S q)).
Qed.

Section MainRuns.

Variable IMG_INPUT : nat.
Variable class_names : list string.
Variable OUTPUT : option string.
Variable isfile : string -> bool.
Variable imread : string -> result Image.
Variable resize_preprocess : Image -> nat -> result Image.
Variable predict : Image -> result (list Box * list Z * list R).
Variable draw_and_save : Image -> list Evaluate.DrawingBox -> string
                         -> result unit.

Let write_detections := Evaluate.write_detections IMG_INPUT class_names.
Let instance_body := Evaluate.instance_body IMG_INPUT class_names OUTPUT
                       isfile imread resize_preprocess predict draw_and_save.
Let main_loop := Evaluate.main_loop IMG_INPUT class_names OUTPUT isfile
                   imread resize_preprocess predict draw_and_save.
Let _main_ := Evaluate._main_ IMG_INPUT class_names OUTPUT isfile imread
                resize_preprocess predict draw_and_save.

Lemma write_detections_events (height width : nat) (img_path : string)
    (dets : list (Box * Z * R)) :
  forall bboxes,
    Forall (fun ev =>
              exists box cls sc name,
                In (box, cls, sc) dets
                /\ Evaluate.py_index class_names cls = Ok name
                /\ ev = Evaluate.WriteRow img_path
                          (Evaluate.mkDrawingBox
                             (X1 box * (INR width / INR IMG_INPUT))
                             (Y1 box * (INR height / INR IMG_INPUT))
                             (X2 box * (INR width / INR IMG_INPUT))
                             (Y2 box * (INR height / INR IMG_INPUT))
                             name sc))
           (fst (write_detections height width img_path dets bboxes)).
Proof.
  unfold write_detections.
  induction dets as [|[[box cls] sc] dets IH]; intros bboxes;
    cbn [Evaluate.write_detections]; [constructor|].
  unfold Evaluate.to_image. cbv zeta.
  destruct (Evaluate.py_index class_names cls) as [name|e] eqn:En;
    [|constructor].
  specialize (IH (bboxes ++ [Evaluate.mkDrawingBox
                               (X1 box * (INR width / INR IMG_INPUT))
                               (Y1 box * (INR height / INR IMG_INPUT))
                               (X2 box * (INR width / INR IMG_INPUT))
                               (Y2 box * (INR height / INR IMG_INPUT))
                               name sc])).
  destruct (Evaluate.write_detections _ _ _ _ _ _ _) as [ev r]. cbn [fst] in *.
  constructor.
  - exists box, cls, sc, name. repeat split; [now left | assumption].
  - eapply Forall_impl; [|exact IH]. cbv beta.
    intros ev0 (b & c & s & nm & Hin & Hn & ->).
    exists b, c, s, nm. repeat split; [now right | assumption].
Qed.

Lemma instance_body_events (instance : list string) (ev : Evaluate.event) :
  In ev (fst (instance_body instance)) ->
  exists f orig img boxes classes scores,
    hd_error instance = Some f
    /\ isfile f = true
    /\ imread f = Ok orig
    /\ resize_preprocess orig IMG_INPUT = Ok img
    /\ predict img = Ok (boxes, classes, scores)
    /\ ((exists box cls sc name,
           In (box, cls, sc) (combine (combine boxes classes) scores)
           /\ Evaluate.py_index class_names cls = Ok name
           /\ ev = Evaluate.WriteRow f
                     (Evaluate.mkDrawingBox
                        (X1 box * (INR (img_width orig) / INR IMG_INPUT))
                        (Y1 box * (INR (img_height orig) / INR IMG_INPUT))
                        (X2 box * (INR (img_width orig) / INR IMG_INPUT))
                        (Y2 box * (INR (img_height orig) / INR IMG_INPUT))
                        name sc))
        \/ (OUTPUT <> None
            /\ ev = Evaluate.SaveImage
                      ("./evaluation/" ++ Evaluate.basename f)%string)).
Proof.
  unfold instance_body, Evaluate.instance_body.
  destruct instance as [|f rest]; [easy|].
  destruct (isfile f) eqn:Ef; [|easy]. cbn [negb].
  destruct (imread f) as [orig|e] eqn:Ei; [|easy].
  destruct (resize_preprocess orig IMG_INPUT) as [img|e] eqn:Er; [|easy].
  destruct (predict img) as [[[boxes classes] scores]|e] eqn:Ep; [|easy].
  pose proof (write_detections_events (img_height orig) (img_width orig) f
                (combine (combine boxes classes) scores) []) as Hw.
  unfold write_detections in Hw.
  destruct (Evaluate.write_detections _ _ _ _ _ _ _) as [evs [bboxes|e]];
    cbn [fst] in *.
  - intros Hin.
    exists f, orig, img, boxes, classes, scores.
    repeat split; try assumption.
    destruct OUTPUT as [o|] eqn:Eo; cbn [fst] in Hin.
    + apply in_app_or in Hin as [Hin|[<-|[]]].
      * left. exact (proj1 (Forall_forall _ _) Hw ev Hin).
      * right. split; [discriminate | reflexivity].
    + left. exact (proj1 (Forall_forall _ _) Hw ev Hin).
  - intros Hin.
    exists f, orig, img, boxes, classes, scores.
    repeat split; try assumption.
    left. exact (proj1 (Forall_forall _ _) Hw ev Hin).
Qed.

Lemma main_loop_events (instances : list (list string)) (ev : Evaluate.event) :
  In ev (fst (main_loop instances)) ->
  exists instance, In instance instances /\ In ev (fst (instance_body instance)).
Proof.
  unfold main_loop, instance_body.
  induction instances as [|inst instances IH]; cbn [Evaluate.main_loop fst];
    [easy|].
  destruct (Evaluate.instance_body _ _ _ _ _ _ _ _ inst) as [ev0 [u|e]] eqn:Eb.
  - destruct (Evaluate.main_loop _ _ _ _ _ _ _ _ instances) as [ev' r].
    cbn [fst] in *. intros Hin. apply in_app_or in Hin as [Hin|Hin].
    + exists inst. split; [now left|]. now rewrite Eb.
    + destruct (IH Hin) as (i & Hi & Hev). exists i. split; [now right|assumption].
  - cbn [fst]. intros Hin. exists inst. split; [now left|]. now rewrite Eb.
Qed.

(** X20. Every row that [_main_] writes to detections.csv comes from an
    entry after the first row of the test CSV whose path is an existing
    file: the row carries that path, the label [class_names[cls]] and the
    score of one detection of that image, and the box of the detection
    with x multiplied by width / IMG_INPUT and y by height / IMG_INPUT of
    the image read from the path. *)
Theorem main_rows_come_from_detections (testing_instances : list (list string))
    (f : string) (b : Evaluate.DrawingBox) :
  In (Evaluate.WriteRow f b) (fst (_main_ testing_instances)) ->
  exists instance orig img boxes classes scores box cls,
    In instance (tl testing_instances)
    /\ hd_error instance = Some f
    /\ isfile f = true
    /\ imread f = Ok orig
    /\ resize_preprocess orig IMG_INPUT = Ok img
    /\ predict img = Ok (boxes, classes, scores)
    /\ In (box, cls, Evaluate.score b) (combine (combine boxes classes) scores)
    /\ Evaluate.py_index class_names cls = Ok (Evaluate.label b)
    /\ Evaluate.x1 b = X1 box * (INR (img_width orig) / INR IMG_INPUT)
    /\ Evaluate.y1 b = Y1 box * (INR (img_height orig) / INR IMG_INPUT)
    /\ Evaluate.x2 b = X2 box * (INR (img_width orig) / INR IMG_INPUT)
    /\ Evaluate.y2 b = Y2 box * (INR (img_height orig) / INR IMG_INPUT).
Proof.
  unfold _main_, Evaluate._main_. intros Hin.
  apply main_loop_events in Hin as (inst & Hinst & Hev).
  apply instance_body_events in Hev
    as (f' & orig & img & boxes & classes & scores
        & Hhd & Hf & Hi & Hr & Hp & Hcase).
  destruct Hcase as [(box & cls & sc & name & Hdet & Hname & E) | [_ E]];
    [|discriminate].
  inversion E; subst f' b. cbn.
  exists inst, orig, img, boxes, classes, scores, box, cls.
  repeat split; assumption.
Qed.

(** X21. Every image that [_main_] saves is saved only when an output path
    was given, for an entry after the first row whose path is an existing
    file, under "./evaluation/" followed by the last component of that
    path, which holds no '/'. *)
Theorem main_saved_images (testing_instances : list (list string))
    (file : string) :
  In (Evaluate.SaveImage file) (fst (_main_ testing_instances)) ->
  OUTPUT <> None
  /\ exists instance f,
       In instance (tl testing_instances)
       /\ hd_error instance = Some f
       /\ isfile f = true
       /\ file = ("./evaluation/" ++ Evaluate.basename f)%string
       /\ forall n, String.get n (Evaluate.basename f) <> Some "/"%char.
Proof.
  unfold _main_, Evaluate._main_. intros Hin.
  apply main_loop_events in Hin as (inst & Hinst & Hev).
  apply instance_body_events in Hev
    as (f' & orig & img & boxes & classes & scores
        & Hhd & Hf & _ & _ & _ & Hcase).
  destruct Hcase as [(box & cls & sc & name & _ & _ & E) | [Ho E]];
    [discriminate|].
  inversion E; subst file. split; [assumption|].
  exists inst, f'. repeat split; try assumption.
  intros n. apply basename_from_no_slash. intros m. now destruct m.
Qed.

Lemma main_loop_app (l1 l2 : list (list string)) :
  main_loop (l1 ++ l2)
  = match main_loop l1 with
    | (ev, Raise e) => (ev, Raise e)
    | (ev, Ok _) => (ev ++ fst (main_loop l2), snd (main_loop l2))
    end.
Proof.
  unfold main_loop. induction l1 as [|inst l1 IH]; cbn [app Evaluate.main_loop].
  - now destruct (Evaluate.main_loop _ _ _ _ _ _ _ _ l2).
  - destruct (Evaluate.instance_body _ _ _ _ _ _ _ _ inst) as [ev0 [u|e]];
      [|reflexivity].
    rewrite IH.
    destruct (Evaluate.main_loop _ _ _ _ _ _ _ _ l1) as [ev1 [u1|e1]];
      [|reflexivity].
    now rewrite app_assoc.
Qed.

Lemma main_loop_all_ok (l : list (list string)) :
  Forall (fun inst => exists u, snd (instance_body inst) = Ok u) l ->
  main_loop l = (flat_map (fun inst => fst (instance_body inst)) l, Ok tt).
Proof.
  unfold main_loop, instance_body.
  induction 1 as [|inst l [u Hu] Hl IH]; cbn [Evaluate.main_loop flat_map];
    [reflexivity|].
  destruct (Evaluate.instance_body _ _ _ _ _ _ _ _ inst) as [ev0 r0].
  cbn [snd fst] in *. subst r0. now rewrite IH.
Qed.

(** X22. [_main_] has no handler around the work on one image: when that
    work raises for an entry (an unreadable image, a failing prediction, a
    class id outside [class_names], or a blank CSV line, whose [instance[0]]
    raises IndexError), the run ends with that exception; the rows written
    for the entries before it stay written and the entries after it are
    never processed. *)
Theorem main_stops_at_first_failure (header : list string)
    (before after : list (list string)) (instance : list string)
    (e : exception) :
  Forall (fun inst => exists u, snd (instance_body inst) = Ok u) before ->
  snd (instance_body instance) = Raise e ->
  _main_ (header :: before ++ instance :: after)
  = (flat_map (fun inst => fst (instance_body inst)) (before ++ [instance]),
     Raise e)
  /\ instance_body [] = ([], Raise IndexError).
Proof.
  intros Hb Hi. split; [|reflexivity].
  unfold _main_, Evaluate._main_. cbn [tl]. fold main_loop.
  rewrite main_loop_app, (main_loop_all_ok before Hb).
  rewrite flat_map_app. cbn [flat_map]. rewrite app_nil_r.
  unfold main_loop, instance_body in *. cbn [Evaluate.main_loop fst snd].
  destruct (Evaluate.instance_body _ _ _ _ _ _ _ _ instance) as [ev0 r0].
  cbn [snd fst] in *. subst r0. reflexivity.
Qed.

(** X23. [_main_] ignores the first row of the test CSV and every entry
    whose path is not an existing file: replacing the first row and
    removing those entries changes neither what is written nor the
    result. *)
Theorem main_skips_header_and_missing_files (header header' : list string)
    (instances : list (list string)) :
  _main_ (header :: instances)
  = _main_ (header' :: filter (fun inst => match inst with
                                           | [] => true
                                           | f :: _ => isfile f
                                           end) instances).
Proof.
  unfold _main_, Evaluate._main_. cbn [tl].
  induction instances as [|inst instances IH]; [reflexivity|].
  cbn [filter]. destruct inst as [|f rest].
  - reflexivity.
  - destruct (isfile f) eqn:Ef.
    + cbn [Evaluate.main_loop]. now rewrite IH.
    + cbn [Evaluate.main_loop Evaluate.instance_body]. rewrite Ef.
      cbn [negb]. rewrite IH.
      match goal with
      | |- context [Evaluate.main_loop ?a ?b ?c ?d ?e ?g ?h ?k ?l] =>
          destruct (Evaluate.main_loop a b c d e g h k l) as [ev r]
      end.
      reflexivity.
Qed.

End MainRuns.

Lemma main_sample_run :
  EvalSamples._main_ EvalSamples.test_csv
  = ([Evaluate.WriteRow "imgs/a.png" EvalSamples.row_a;
      Evaluate.SaveImage "./evaluation/a.png"], Ok tt).
Proof. reflexivity. Qed.

Lemma main_rows_come_from_detections_witness :
  exists instance orig img boxes classes scores box cls,
    In instance (tl EvalSamples.test_csv)
    /\ hd_error instance = Some "imgs/a.png"%string
    /\ EvalSamples.isfile "imgs/a.png" = true
    /\ Ok Samples.img_200x100 = Ok orig
    /\ Ok orig = Ok img
    /\ Ok ([mkBox 0 0 208 208], [0%Z], [0.9]) = Ok (boxes, classes, scores)
    /\ In (box, cls, Evaluate.score EvalSamples.row_a)
          (combine (combine boxes classes) scores)
    /\ Evaluate.py_index EvalSamples.class_names cls
       = Ok (Evaluate.label EvalSamples.row_a)
    /\ Evaluate.x1 EvalSamples.row_a
       = X1 box * (INR (img_width orig) / INR 416)
    /\ Evaluate.y1 EvalSamples.row_a
       = Y1 box * (INR (img_height orig) / INR 416)
    /\ Evaluate.x2 EvalSamples.row_a
       = X2 box * (INR (img_width orig) / INR 416)
    /\ Evaluate.y2 EvalSamples.row_a
       = Y2 box * (INR (img_height orig) / INR 416).
Proof.
  apply (main_rows_come_from_detections 416 EvalSamples.class_names
           (Some "out"%string) EvalSamples.isfile
           (fun _ => Ok Samples.img_200x100) (fun img _ => Ok img)
           (fun _ => Ok ([mkBox 0 0 208 208], [0%Z], [0.9]))
           (fun _ _ _ => Ok tt) EvalSamples.test_csv
           "imgs/a.png" EvalSamples.row_a).
  fold EvalSamples._main_. rewrite main_sample_run. left. reflexivity.
Defined.

Lemma main_saved_images_witness :
  Some "out"%string <> None
  /\ exists instance f,
       In instance (tl EvalSamples.test_csv)
       /\ hd_error instance = Some f
       /\ EvalSamples.isfile f = true
       /\ "./evaluation/a.png"%string
          = ("./evaluation/" ++ Evaluate.basename f)%string
       /\ forall n, String.get n (Evaluate.basename f) <> Some "/"%char.
Proof.
  apply (main_saved_images 416 EvalSamples.class_names
           (Some "out"%string) EvalSamples.isfile
           (fun _ => Ok Samples.img_200x100) (fun img _ => Ok img)
           (fun _ => Ok ([mkBox 0 0 208 208], [0%Z], [0.9]))
           (fun _ _ _ => Ok tt) EvalSamples.test_csv "./evaluation/a.png").
  fold EvalSamples._main_. rewrite main_sample_run. right. left. reflexivity.
Defined.

Lemma main_stops_at_first_failure_witness :
  EvalSamples._main_
    (["Filename"%string] :: [["imgs/a.png"%string]] ++ [] :: [["imgs/a.png"%string]])
  = (flat_map (fun inst => fst (EvalSamples.instance_body inst))
       ([["imgs/a.png"%string]] ++ [[]]),
     Raise IndexError)
  /\ EvalSamples.instance_body [] = ([], Raise IndexError).
Proof.
  apply (main_stops_at_first_failure 416 EvalSamples.class_names
           (Some "out"%string) EvalSamples.isfile
           (fun _ => Ok Samples.img_200x100) (fun img _ => Ok img)
           (fun _ => Ok ([mkBox 0 0 208 208], [0%Z], [0.9]))
           (fun _ _ _ => Ok tt) ["Filename"%string]
           [["imgs/a.png"%string]] [["imgs/a.png"%string]] [] IndexError).
  - repeat constructor. exists tt. reflexivity.
  - reflexivity.
Defined.
